(** * prometheus-puppetdb: the target mapper, the inventory client and the
      poll loop of [main.go], and the sink selection of [outputs.Setup].

    Go values are embedded as follows.  A Go [string] (a byte sequence) is a
    Rocq [string]; a [map[string]string] is a [gmap string string]; a slice
    is a list; a function returning [(T, error)] returns [error + T]; a
    function with named results [(c []byte, err error)] returns the pair of
    both results, [nil] being [None].  Go randomises the order in which
    [range] visits a map: every loop over a map is run along an explicit
    visiting order, and theorems quantify over all orders that enumerate the
    map. *)

From Stdlib Require Import ZArith Ascii String List.
From stdpp Require Import base option list gmap strings pretty sorting.

Open Scope string_scope.

(** ** Byte-level helpers for Go's [strings] package *)

Module strings.

Definition byte_le (a b : ascii) : bool := (N_of_ascii a <=? N_of_ascii b)%N.

Definition between (lo hi c : ascii) : bool := byte_le lo c && byte_le c hi.

Definition is_byte (a b : ascii) : bool := bool_decide (a = b).

(** [strings.Cut(s, sep)] for a one-byte separator. *)
Fixpoint Cut (sep : ascii) (s : string) : string * string * bool :=
  match s with
  | EmptyString => (EmptyString, EmptyString, false)
  | String c r =>
      if is_byte c sep then (EmptyString, r, true)
      else let '(b, a, found) := Cut sep r in (String c b, a, found)
  end.

(** [strings.Contains(s, sep)] for a one-byte separator. *)
Fixpoint ContainsByte (sep : ascii) (s : string) : bool :=
  match s with
  | EmptyString => false
  | String c r => is_byte c sep || ContainsByte sep r
  end.

(** [strings.HasPrefix(s, prefix)]. *)
Definition HasPrefix (s p : string) : bool := String.prefix p s.

(** Split at the last occurrence of [sep]: [Some (s[:i], s[i+1:])] for
    [i = strings.LastIndex(s, sep)], [None] when [i < 0]. *)
Fixpoint CutLast (sep : ascii) (s : string) : option (string * string) :=
  match s with
  | EmptyString => None
  | String c r =>
      match CutLast sep r with
      | Some (b, a) => Some (String c b, a)
      | None => if is_byte c sep then Some (EmptyString, r) else None
      end
  end.

Definition lower_byte (c : ascii) : ascii :=
  if between "A" "Z" c then ascii_of_N (N_of_ascii c + 32) else c.

(** [strings.ToLower] on ASCII input (a scheme holds ASCII bytes only). *)
Fixpoint ToLower (s : string) : string :=
  match s with
  | EmptyString => EmptyString
  | String c r => String (lower_byte c) (ToLower r)
  end.

Fixpoint all_bytes (p : ascii → bool) (s : string) : bool :=
  match s with
  | EmptyString => true
  | String c r => p c && all_bytes p r
  end.

End strings.

(** ** Data model ([main.go], lines 48-56) *)

(** A Go [error], identified with its message. *)
Definition error : Type := string.

Record Node := {
  Certname : string;
  Exporters : gmap string string;
}.

Record StaticConfig := {
  Targets : list string;
  Labels : gmap string string;
}.

(** The three fields of [url.URL] that [main.go] reads. *)
Record URL := {
  Scheme : string;
  Host : string;
  Path : string;
}.

(** ** Go's [net/url]: the part of [url.Parse] that decides [Scheme], [Host]
       and [Path]

    [url.Parse] belongs to Go's standard library, not to this repository.
    The functions below follow [net/url/url.go] (Go 1.20): [getScheme],
    [parse], [parseAuthority], [parseHost], [validOptionalPort],
    [validUserinfo], [shouldEscape] and [unescape].  The fields of [url.URL]
    that [main.go] never reads ([Opaque], [User], [RawQuery], [Fragment],
    [RawPath], [ForceQuery], [OmitHost]) are computed only as far as they can
    make the parse fail.  The text of an error is the text of the inner
    error, without the [parse "...": ] prefix of [url.Error]. *)

Module url.
Import strings.

Inductive encoding :=
  | encodePath | encodeHost | encodeZone | encodeUserPassword | encodeFragment.

Definition is_host_mode (mode : encoding) : bool :=
  match mode with encodeHost | encodeZone => true | _ => false end.

Definition isalpha (c : ascii) : bool := between "a" "z" c || between "A" "Z" c.
Definition isdigit (c : ascii) : bool := between "0" "9" c.

Definition ishex (c : ascii) : bool :=
  between "0" "9" c || between "a" "f" c || between "A" "F" c.

Definition unhex (c : ascii) : N :=
  if between "0" "9" c then N_of_ascii c - N_of_ascii "0"
  else if between "a" "f" c then N_of_ascii c - N_of_ascii "a" + 10
  else if between "A" "F" c then N_of_ascii c - N_of_ascii "A" + 10
  else 0.

Definition one_of (set : string) (c : ascii) : bool := ContainsByte c set.

(** [shouldEscape(c, encodeHost)], the only mode [unescape] asks about. *)
Definition shouldEscapeHost (c : ascii) : bool :=
  if isalpha c || isdigit c then false
  else if one_of "!$&'()*+,;=:[]<>" c || is_byte c (ascii_of_N 34) then false
  else if one_of "-_.~" c then false
  else true.

Definition stringContainsCTLByte (s : string) : bool :=
  negb (all_bytes (λ c, negb (byte_le c (ascii_of_N 31) || is_byte c (ascii_of_N 127))) s).

(** [unescape(s, mode)]: the validating scan and the decoding pass of the
    Go function in one recursion; the first offending byte from the left
    decides the error in both. *)
Fixpoint unescape (mode : encoding) (s : string) : error + string :=
  match s with
  | EmptyString => inr EmptyString
  | String c r =>
      if is_byte c "%" then
        match r with
        | String h1 (String h2 r') =>
            let v := ascii_of_N (16 * unhex h1 + unhex h2) in
            let is25 := is_byte h1 "2" && is_byte h2 "5" in
            if negb (ishex h1 && ishex h2) then inl "invalid URL escape"
            else if match mode with
                    | encodeHost => (unhex h1 <? 8)%N && negb is25
                    | encodeZone =>
                        negb is25 && negb (is_byte v " ") && shouldEscapeHost v
                    | _ => false
                    end
            then inl "invalid URL escape"
            else match unescape mode r' with
                 | inl e => inl e
                 | inr t => inr (String v t)
                 end
        | _ => inl "invalid URL escape"
        end
      else if is_host_mode mode && (N_of_ascii c <? 128)%N && shouldEscapeHost c
      then inl "invalid character in host name"
      else match unescape mode r with
           | inl e => inl e
           | inr t => inr (String c t)
           end
  end.

(** The scan of [getScheme]; [first] says that the byte looked at is
    [rawURL[0]].  [Some (scheme, rest)] when a colon ends a scheme, [None]
    when the text has no scheme. *)
Fixpoint getScheme_scan (first : bool) (s : string)
  : error + option (string * string) :=
  match s with
  | EmptyString => inr None
  | String c r =>
      let continue :=
        match getScheme_scan false r with
        | inr (Some (scheme, rest)) => inr (Some (String c scheme, rest))
        | other => other
        end in
      if isalpha c then continue
      else if isdigit c || one_of "+-." c then
        if first then inr None else continue
      else if is_byte c ":" then
        if first then inl "missing protocol scheme" else inr (Some (EmptyString, r))
      else inr None
  end.

Definition getScheme (rawURL : string) : error + string * string :=
  match getScheme_scan true rawURL with
  | inl e => inl e
  | inr (Some p) => inr p
  | inr None => inr (EmptyString, rawURL)
  end.

Definition validOptionalPort (port : string) : bool :=
  match port with
  | EmptyString => true
  | String c digits => is_byte c ":" && all_bytes isdigit digits
  end.

Definition validUserinfo (s : string) : bool :=
  all_bytes (λ c, isalpha c || isdigit c || one_of "-._:~!$&'()*+,;=%@" c) s.

(** [(s[:i], s[i:])] for [i = strings.Index(s, "%25")]. *)
Fixpoint cut_zone (s : string) : option (string * string) :=
  if HasPrefix s "%25" then Some (EmptyString, s)
  else match s with
       | EmptyString => None
       | String c r =>
           match cut_zone r with
           | Some (b, a) => Some (String c b, a)
           | None => None
           end
       end.

Definition parseHost (host : string) : error + string :=
  let plain :=
    match CutLast ":" host with
    | Some (_, port) =>
        if validOptionalPort (String ":" port) then unescape encodeHost host
        else inl "invalid port after host"
    | None => unescape encodeHost host
    end in
  if HasPrefix host "[" then
    match CutLast "]" host with
    | None => inl "missing ']' in host"
    | Some (lit, colonPort) =>
        if negb (validOptionalPort colonPort) then inl "invalid port after host"
        else match cut_zone lit with
             | Some (before, zone) =>
                 match unescape encodeHost before with
                 | inl e => inl e
                 | inr host1 =>
                     match unescape encodeZone zone with
                     | inl e => inl e
                     | inr host2 =>
                         match unescape encodeHost (String "]" colonPort) with
                         | inl e => inl e
                         | inr host3 => inr (host1 ++ host2 ++ host3)
                         end
                     end
                 end
             | None => unescape encodeHost host
             end
    end
  else plain.

(** [parseAuthority], returning the host; the user information is only
    checked. *)
Definition parseAuthority (authority : string) : error + string :=
  match CutLast "@" authority with
  | None => parseHost authority
  | Some (userinfo, hostport) =>
      match parseHost hostport with
      | inl e => inl e
      | inr host =>
          if negb (validUserinfo userinfo) then inl "net/url: invalid userinfo"
          else
            let '(username, password, _) := Cut ":" userinfo in
            match unescape encodeUserPassword username,
                  unescape encodeUserPassword password with
            | inl e, _ | inr _, inl e => inl e
            | inr _, inr _ => inr host
            end
      end
  end.

(** [(s[:i], s[i:])] for the first slash [i], or [(s, "")]. *)
Fixpoint split_at_slash (s : string) : string * string :=
  match s with
  | EmptyString => (EmptyString, EmptyString)
  | String c r =>
      if is_byte c "/" then (EmptyString, s)
      else let '(b, a) := split_at_slash r in (String c b, a)
  end.

Definition setPath (scheme host p : string) : error + URL :=
  match unescape encodePath p with
  | inl e => inl e
  | inr path => inr {| Scheme := scheme; Host := host; Path := path |}
  end.

(** [parse(rawURL, viaRequest = false)]. *)
Definition parse (rawURL : string) : error + URL :=
  if stringContainsCTLByte rawURL
  then inl "net/url: invalid control character in URL"
  else if bool_decide (rawURL = "*")
  then inr {| Scheme := ""; Host := ""; Path := "*" |}
  else
    match getScheme rawURL with
    | inl e => inl e
    | inr (scheme, rest) =>
        let scheme := ToLower scheme in
        (* both branches on "?" leave the text before the first "?" *)
        let rest := (Cut "?" rest).1.1 in
        if negb (HasPrefix rest "/") && negb (bool_decide (scheme = ""))
        then inr {| Scheme := scheme; Host := ""; Path := "" |}
        else if negb (HasPrefix rest "/")
                && ContainsByte ":" (Cut "/" rest).1.1
        then inl "first path segment in URL cannot contain colon"
        else if (negb (bool_decide (scheme = "")) || negb (HasPrefix rest "///"))
                && HasPrefix rest "//"
        then
          let '(authority, rest) :=
            split_at_slash (String.substring 2 (String.length rest - 2) rest) in
          match parseAuthority authority with
          | inl e => inl e
          | inr host => setPath scheme host rest
          end
        else setPath scheme "" rest
    end.

Definition Parse (rawURL : string) : error + URL :=
  let '(u, frag, _) := Cut "#" rawURL in
  match parse u with
  | inl e => inl e
  | inr url =>
      match unescape encodeFragment frag with
      | inl e => inl e
      | inr _ => inr url
      end
  end.

End url.

(** ** Target mapper: the loops of [getTargets] ([main.go], lines 134-152) *)

(** The order in which the [i]-th [range] statement executed visits a map.
    Go leaves it unspecified; a valid order enumerates the entries of the
    map, each once. *)
Definition MapOrder : Type := nat → gmap string string → list (string * string).

Definition valid_order (range : MapOrder) : Prop :=
  ∀ i m, range i m ≡ₚ map_to_list m.

(** The order stdpp lists a map in; one valid order among all. *)
Definition canonical_order : MapOrder := λ _ m, map_to_list m.

Section Mapper.
Variable Parse : string → error + URL.
Variable range : MapOrder.

(** The struct literal of lines 140-149. *)
Definition staticConfig (node : Node) (jobName : string) (u : URL) : StaticConfig :=
  {| Targets := [Host u];
     Labels := {[ "certname" := Certname node;
                  "host" := Certname node;
                  "metrics_path" := Path u;
                  "job" := jobName;
                  "scheme" := Scheme u ]} |}.

(** The inner loop, run along the entries [visit]: a parse error returns
    from [getTargets] at once, otherwise the config is appended. *)
Fixpoint rangeExporters (node : Node) (visit : list (string * string))
    (fileSdConfig : list StaticConfig) : error + list StaticConfig :=
  match visit with
  | [] => inr fileSdConfig
  | (jobName, target) :: visit =>
      match Parse target with
      | inl err => inl err
      | inr u => rangeExporters node visit (fileSdConfig ++ [staticConfig node jobName u])
      end
  end.

(** The outer loop; [i] counts the nodes visited so far. *)
Fixpoint rangeNodes (i : nat) (nodes : list Node)
    (fileSdConfig : list StaticConfig) : error + list StaticConfig :=
  match nodes with
  | [] => inr fileSdConfig
  | node :: nodes =>
      match rangeExporters node (range i (Exporters node)) fileSdConfig with
      | inl err => inl err
      | inr fileSdConfig => rangeNodes (S i) nodes fileSdConfig
      end
  end.

(** Lines 126 and 134-152: [fileSdConfig := []StaticConfig{}], then the
    two loops. *)
Definition mapTargets (nodes : list Node) : error + list StaticConfig :=
  rangeNodes 0 nodes [].

End Mapper.

(** ** Libraries and the environment

    The decoder of [encoding/json], the encoder of [gopkg.in/yaml.v1],
    [filepath.Dir], [fmt.Printf]'s formatting and the PEM check of
    [tls.LoadX509KeyPair] are functions of libraries; the program is stated
    over any implementation of them.  [url_Parse] is a field as well, and
    [url.Parse] above is the implementation the examples run. *)

Class Externals := {
  url_Parse : string → error + URL;
  json_Unmarshal : string → error + list Node;
  yaml_Marshal : list StaticConfig → error + string;
  filepath_Dir : string → string;
  (* [fmt.Sprintf(format)] with no operand *)
  fmt_Sprintf : string → string;
  (* the error, if any, of [tls.X509KeyPair(certPEM, keyPEM)] *)
  tls_X509KeyPair : string → string → option error;
  (* [time.Duration.String] *)
  Duration_String : Z → string;
}.

Definition dquote : string := String (ascii_of_N 34) EmptyString.
Definition LF : string := String (ascii_of_N 10) EmptyString.

(** [main.go], lines 32-46, as [loadConfig] returns it: [loadConfig] leaves
    the process when [Version] or [Manpage] is set, so both are false in
    every configuration that reaches [init] and are left out.  [Sleep] is a
    [time.Duration], in nanoseconds. *)
Record Config := {
  PuppetDBURL : string;
  CertFile : string;
  KeyFile : string;
  CACertFile : string;
  SSLSkipVerify : bool;
  Query : string;
  Output : string;
  File : string;
  ConfigMap : string;
  NameSpace : string;
  Sleep : Z;
}.

(** An [http.Request] as [getNodes] builds it. *)
Record Request := {
  Method : string;
  RequestURL : string;
  Header : list (string * string);
  Body : string;
}.

(** An [http.Response]: its status code and what [ioutil.ReadAll] returns
    for its body. *)
Record Response := {
  StatusCode : Z;
  ReadAll : error + string;
}.

(** [tls.Config] and [http.Transport], lines 197-206. *)
Record TLSConfig := {
  Certificates : list (string * string);
  RootCAs : string;
  InsecureSkipVerify : bool;
}.

Record Transport := { TLSClientConfig : option TLSConfig }.

Record Client := { ClientTransport : Transport }.

(** The world the process runs in.  [network] lists what the network
    answers to the successive calls of [client.Do]; [sent] lists the requests
    issued so far, oldest first; [cluster] is the Kubernetes cluster the
    process runs in, if any, with the data of its ConfigMaps by namespace and
    name. *)
Record World := {
  network : list (error + Response);
  sent : list Request;
  dirs : gset string;
  files : gmap string string;
  stdout : string;
  logged : list (string * string);
  slept : list Z;
  cluster : option (gmap (string * string) (gmap string string));
}.

Definition set_network (x : list (error + Response)) (w : World) : World :=
  {| network := x; sent := sent w; dirs := dirs w; files := files w;
     stdout := stdout w; logged := logged w; slept := slept w; cluster := cluster w |}.
Definition set_sent (x : list Request) (w : World) : World :=
  {| network := network w; sent := x; dirs := dirs w; files := files w;
     stdout := stdout w; logged := logged w; slept := slept w; cluster := cluster w |}.
Definition set_dirs (x : gset string) (w : World) : World :=
  {| network := network w; sent := sent w; dirs := x; files := files w;
     stdout := stdout w; logged := logged w; slept := slept w; cluster := cluster w |}.
Definition set_files (x : gmap string string) (w : World) : World :=
  {| network := network w; sent := sent w; dirs := dirs w; files := x;
     stdout := stdout w; logged := logged w; slept := slept w; cluster := cluster w |}.
Definition set_stdout (x : string) (w : World) : World :=
  {| network := network w; sent := sent w; dirs := dirs w; files := files w;
     stdout := x; logged := logged w; slept := slept w; cluster := cluster w |}.
Definition set_logged (x : list (string * string)) (w : World) : World :=
  {| network := network w; sent := sent w; dirs := dirs w; files := files w;
     stdout := stdout w; logged := x; slept := slept w; cluster := cluster w |}.
Definition set_slept (x : list Z) (w : World) : World :=
  {| network := network w; sent := sent w; dirs := dirs w; files := files w;
     stdout := stdout w; logged := logged w; slept := x; cluster := cluster w |}.
Definition set_cluster (x : option (gmap (string * string) (gmap string string)))
    (w : World) : World :=
  {| network := network w; sent := sent w; dirs := dirs w; files := files w;
     stdout := stdout w; logged := logged w; slept := slept w; cluster := x |}.

(** How a process stops before [main] returns: [os.Exit] (through
    [log.Fatal]) or a panic. *)
Inductive halt :=
  | Exit (code : Z)
  | Panic (msg : string).

(** A computation reads and changes the world and either halts the process
    or yields a value. *)
Definition M (A : Type) : Type := World → (halt + A) * World.

Definition ret {A} (a : A) : M A := λ w, (inr a, w).

Definition bind {A B} (m : M A) (k : A → M B) : M B :=
  λ w, match m w with
       | (inl h, w') => (inl h, w')
       | (inr a, w') => k a w'
       end.

Notation "'let*' x ':=' m 'in' k" := (bind m (λ x, k))
  (at level 10, x pattern, m at level 100, k at level 200).
Notation "m ';;' k" := (bind m (λ _, k))
  (at level 100, k at level 200, right associativity).

(** *** Primitives of the environment *)

(** [client.Do(req)]: the request goes out, the network answers; a network
    that answers nothing more is a transport error. *)
Definition client_Do (client : Client) (req : Request) : M (error + Response) :=
  λ w, match network w with
       | [] => (inr (inl "connection refused"), set_sent (sent w ++ [req]) w)
       | r :: rest => (inr r, set_network rest (set_sent (sent w ++ [req]) w))
       end.

(** [os.MkdirAll(path, perm)] fails when [path] names a regular file. *)
Definition os_MkdirAll (path : string) : M (option error) :=
  λ w, match files w !! path with
       | Some _ => (inr (Some "not a directory"), w)
       | None => (inr None, set_dirs ({[ path ]} ∪ dirs w) w)
       end.

(** [ioutil.WriteFile(filename, data, perm)] creates or truncates the file;
    it fails when the directory of the file does not exist or when the name
    is a directory. *)
Definition ioutil_WriteFile `{Externals} (filename data : string) : M (option error) :=
  λ w, if bool_decide (filepath_Dir filename ∈ dirs w ∧ filename ∉ dirs w)
       then (inr None, set_files (<[filename := data]> (files w)) w)
       else (inr (Some "no such file or directory"), w).

Definition ioutil_ReadFile (filename : string) : M (error + string) :=
  λ w, match files w !! filename with
       | Some data => (inr (inr data), w)
       | None => (inr (inl "no such file or directory"), w)
       end.

Definition fmt_Printf `{Externals} (format : string) : M unit :=
  λ w, (inr (), set_stdout (stdout w ++ fmt_Sprintf format) w).

Definition log_Errorf (msg : string) : M unit :=
  λ w, (inr (), set_logged (logged w ++ [("error", msg)]) w).

Definition log_Infof (msg : string) : M unit :=
  λ w, (inr (), set_logged (logged w ++ [("info", msg)]) w).

(** [log.Fatalf] logs and calls [os.Exit(1)]. *)
Definition log_Fatalf {A} (msg : string) : M A :=
  λ w, (inl (Exit 1), set_logged (logged w ++ [("fatal", msg)]) w).

Definition panic {A} (msg : string) : M A := λ w, (inl (Panic msg), w).

Definition time_Sleep (d : Z) : M unit :=
  λ w, (inr (), set_slept (slept w ++ [d]) w).

(** The ConfigMap calls of [client-go], on the cluster of the world. *)
Definition rest_InClusterConfig : M (option error) :=
  λ w, match cluster w with
       | Some _ => (inr None, w)
       | None => (inr (Some "unable to load in-cluster configuration"), w)
       end.

Definition ConfigMaps_Get (namespace name : string) : M (error + gmap string string) :=
  λ w, match cluster w ≫= (λ c, c !! (namespace, name)) with
       | Some data => (inr (inr data), w)
       | None => (inr (inl "not found"), w)
       end.

Definition ConfigMaps_Create (namespace name : string) (data : gmap string string)
    : M (option error) :=
  λ w, match cluster w with
       | Some c =>
           match c !! (namespace, name) with
           | Some _ => (inr (Some "already exists"), w)
           | None => (inr None, set_cluster (Some (<[(namespace, name) := data]> c)) w)
           end
       | None => (inr (Some "no cluster"), w)
       end.

Definition ConfigMaps_Update (namespace name : string) (data : gmap string string)
    : M (option error) :=
  λ w, match cluster w with
       | Some c =>
           match c !! (namespace, name) with
           | Some _ => (inr None, set_cluster (Some (<[(namespace, name) := data]> c)) w)
           | None => (inr (Some "not found"), w)
           end
       | None => (inr (Some "no cluster"), w)
       end.

(** ** Inventory client: [getNodes] ([main.go], lines 102-123) *)

Section Program.
Context `{Externals}.

(** [http.NewRequest(method, url, body)] for a valid method: it fails when
    the URL does not parse. *)
Definition http_NewRequest (method url body : string) : error + Request :=
  match url_Parse url with
  | inl err => inl err
  | inr _ => inr {| Method := method; RequestURL := url; Header := []; Body := body |}
  end.

Definition Header_Add (key value : string) (req : Request) : Request :=
  {| Method := Method req; RequestURL := RequestURL req;
     Header := Header req ++ [(key, value)]; Body := Body req |}.

(** The text [fmt.Sprintf] builds on line 103: the query is copied between
    the quotes as it is. *)
Definition query_form (query : string) : string :=
  "{" ++ dquote ++ "query" ++ dquote ++ ":" ++ dquote ++ query ++ dquote ++ "}".

(** [getNodes]; the two results [(nodes, err)] are read by the caller as a
    sum: [getTargets] looks at [nodes] only when [err] is nil. *)
Definition getNodes (client : Client) (puppetdb query : string)
    : M (error + list Node) :=
  let form := query_form query in
  let puppetdbURL := puppetdb ++ "/pdb/query/v4" in
  match http_NewRequest "POST" puppetdbURL form with
  | inl err => ret (inl err)
  | inr req =>
      let req := Header_Add "Content-Type" "application/json" req in
      let* resp := client_Do client req in
      match resp with
      | inl err => ret (inl err)
      | inr resp =>
          match ReadAll resp with
          | inl err => ret (inl err)
          | inr body => ret (json_Unmarshal body)
          end
      end
  end.

(** ** [getTargets] ([main.go], lines 125-159): the results [(c, err)],
       [None] for nil. *)
Definition getTargets (range : MapOrder) (client : Client) (cfg : Config)
    : M (option string * option error) :=
  let* nodes := getNodes client (PuppetDBURL cfg) (Query cfg) in
  match nodes with
  | inl err =>
      log_Errorf ("failed to get nodes: " ++ err);;
      ret (None, Some err)
  | inr nodes =>
      match mapTargets url_Parse range nodes with
      | inl err => ret (None, Some err)
      | inr fileSdConfig =>
          match yaml_Marshal fileSdConfig with
          | inl err => ret (None, Some err)
          | inr c => ret (Some c, None)
          end
      end
  end.

(** ** [init] ([main.go], lines 164-209), from the configuration
       [loadConfig] returned; it yields the HTTP client. *)

Definition tls_LoadX509KeyPair (certFile keyFile : string)
    : M (error + string * string) :=
  let* certPEM := ioutil_ReadFile certFile in
  match certPEM with
  | inl err => ret (inl err)
  | inr certPEM =>
      let* keyPEM := ioutil_ReadFile keyFile in
      match keyPEM with
      | inl err => ret (inl err)
      | inr keyPEM =>
          match tls_X509KeyPair certPEM keyPEM with
          | Some err => ret (inl err)
          | None => ret (inr (certPEM, keyPEM))
          end
      end
  end.

(** Lines 182-203 and 208: the client of an https inventory. *)
Definition https_client (cfg : Config) : M Client :=
  let* cert := tls_LoadX509KeyPair (CertFile cfg) (KeyFile cfg) in
  match cert with
  | inl err => log_Fatalf err
  | inr cert =>
      let* caCert := ioutil_ReadFile (CACertFile cfg) in
      match caCert with
      | inl err => log_Fatalf err
      | inr caCert =>
          let tlsConfig :=
            {| Certificates := [cert]; RootCAs := caCert;
               InsecureSkipVerify := SSLSkipVerify cfg |} in
          ret {| ClientTransport := {| TLSClientConfig := Some tlsConfig |} |}
      end
  end.

(** Lines 205 and 208: the client of an http inventory. *)
Definition http_client : Client :=
  {| ClientTransport := {| TLSClientConfig := None |} |}.

Definition init (cfg : Config) : M Client :=
  match url_Parse (PuppetDBURL cfg) with
  | inl err => log_Fatalf ("failed to parse PuppetDB URL: " ++ err)
  | inr puppetdbURL =>
      if bool_decide (Scheme puppetdbURL ≠ "http")
         && bool_decide (Scheme puppetdbURL ≠ "https")
      then log_Fatalf (Scheme puppetdbURL ++ " is not a valid http scheme" ++ LF)
      else if bool_decide (Scheme puppetdbURL = "https")
      then https_client cfg
      else ret http_client
  end.

(** ** [main] ([main.go], lines 211-297)

    The two [for] loops never end by themselves; they are run for at most
    [cycles] rounds.  [range k] is the order of map visits in round [k]. *)

Inductive loop_end := Break | Return | OutOfCycles.

Inductive main_end := Returned | Polling.

Section Main.
Variable range : nat → MapOrder.
Variable client : Client.
Variable cfg : Config.

(** Lines 212-218. *)
Definition stdout_branch : M unit :=
  let* r := getTargets (range 0) client cfg in
  match r with
  | (_, Some err) => log_Fatalf ("failed to get exporters: " ++ err)
  | (c, None) => fmt_Printf (default "" c)
  end.

(** One round of the loop of lines 221-235; [None] stands for going
    round again. *)
Definition file_cycle (k : nat) : M (option loop_end) :=
  let* r := getTargets (range k) client cfg in
  match r with
  | (_, Some err) =>
      log_Errorf ("failed to get exporters: " ++ err);;
      ret (Some Break)
  | (c, None) =>
      let* err := ioutil_WriteFile (File cfg) (default "" c) in
      match err with
      | Some _ => ret (Some Return)
      | None =>
          log_Infof ("Sleeping for " ++ Duration_String (Sleep cfg));;
          time_Sleep (Sleep cfg);;
          ret None
      end
  end.

Fixpoint file_loop (cycles k : nat) : M loop_end :=
  match cycles with
  | 0 => ret OutOfCycles
  | S cycles =>
      let* r := file_cycle k in
      match r with
      | Some e => ret e
      | None => file_loop cycles (S k)
      end
  end.

(** Lines 219-236. *)
Definition file_branch (cycles : nat) : M loop_end :=
  os_MkdirAll (filepath_Dir (File cfg));;
  file_loop cycles 0.

(** One round of the loop of lines 269-295. *)
Definition configmap_cycle (k : nat) : M (option loop_end) :=
  let* r := getTargets (range k) client cfg in
  match r with
  | (_, Some err) =>
      log_Errorf ("failed to get exporters: " ++ err);;
      ret (Some Break)
  | (c, None) =>
      let* err := ConfigMaps_Update (NameSpace cfg) (ConfigMap cfg)
                    {[ "targets.yml" := default "" c ]} in
      match err with
      | Some _ => log_Fatalf "Unable to update ConfigMap."
      | None =>
          log_Infof ("Sleeping for " ++ Duration_String (Sleep cfg));;
          time_Sleep (Sleep cfg);;
          ret None
      end
  end.

Fixpoint configmap_loop (cycles k : nat) : M loop_end :=
  match cycles with
  | 0 => ret OutOfCycles
  | S cycles =>
      let* r := configmap_cycle k in
      match r with
      | Some e => ret e
      | None => configmap_loop cycles (S k)
      end
  end.

(** Lines 237-296; [kubernetes.NewForConfig] is taken to succeed on the
    configuration of the cluster. *)
Definition configmap_branch (cycles : nat) : M loop_end :=
  let* err := rest_InClusterConfig in
  match err with
  | Some err => panic err
  | None =>
      let* got := ConfigMaps_Get (NameSpace cfg) (ConfigMap cfg) in
      (match got with
       | inr _ => ret ()
       | inl _ =>
           let* err := ConfigMaps_Create (NameSpace cfg) (ConfigMap cfg)
                         {[ "targets.yml" := "" ]} in
           match err with
           | Some err => log_Fatalf ("Unable to create ConfigMap: " ++ err)
           | None => ret ()
           end
       end);;
      configmap_loop cycles 0
  end.

(** The three [if] statements in sequence.  [break] goes on to the next
    statement, the [return] of line 230 leaves [main]. *)
Definition main (cycles : nat) : M main_end :=
  (if bool_decide (Output cfg = "stdout") then stdout_branch else ret ());;
  let* e := (if bool_decide (Output cfg = "file")
             then file_branch cycles else ret Break) in
  match e with
  | Return => ret Returned
  | OutOfCycles => ret Polling
  | Break =>
      let* e := (if bool_decide (Output cfg = "configmap")
                 then configmap_branch cycles else ret Break) in
      match e with
      | OutOfCycles => ret Polling
      | _ => ret Returned
      end
  end.

End Main.

(** The process: [init], then [main]. *)
Definition run (range : nat → MapOrder) (cfg : Config) (cycles : nat) : M main_end :=
  let* client := init cfg in
  main range client cfg cycles.

End Program.

(** ** The request of the inventory query, and the world after it *)

(** The request [getNodes] builds from a base URL and a query. *)
Definition inventory_request (puppetdb query : string) : Request :=
  {| Method := "POST";
     RequestURL := puppetdb ++ "/pdb/query/v4";
     Header := [("Content-Type", "application/json")];
     Body := query_form query |}.

(** The world once a request went out and its answer was taken. *)
Definition after_request (req : Request) (w : World) : World :=
  set_network (tail (network w)) (set_sent (sent w ++ [req]) w).

(** ** Sink selection: [outputs.Setup] (package [outputs], lines 9-41) *)

Module outputs.

Record Options := {
  Name : string;
  FilePath : string;
  ConfigMapName : string;
  Namespace : string;
  ObjectLabels : gmap string string;
}.

Section Setup.
(** The file, ConfigMap and external-service sinks and their
    constructors live in other files of the package; they are taken as
    they are declared at the call sites of [Setup]: each constructor
    returns its sink or an error. *)
Variables OutputFile OutputK8SConfigMap OutputK8SExternalService : Type.
Variable setupOutputFile : string → error + OutputFile.
Variable setupOutputK8SConfigMap : string → string → error + OutputK8SConfigMap.
Variable setupOutputK8SExternalService :
  string → gmap string string → error + OutputK8SExternalService.

(** The implementations of the interface [Output] that [Setup] can
    return. *)
Inductive Output :=
  | OutputStdout
  | OfFile (o : OutputFile)
  | OfK8SConfigMap (o : OutputK8SConfigMap)
  | OfK8SExternalService (o : OutputK8SExternalService).

Definition wrap {A} (f : A → Output) (r : error + A) : error + Output :=
  match r with
  | inl err => inl err
  | inr o => inr (f o)
  end.

(** The [switch] of lines 27-40, case by case from the top. *)
Definition Setup (options : Options) : error + Output :=
  if bool_decide (Name options = "stdout") then inr OutputStdout
  else if bool_decide (Name options = "file")
  then wrap OfFile (setupOutputFile (FilePath options))
  else if bool_decide (Name options = "configmap")
  then wrap OfK8SConfigMap
         (setupOutputK8SConfigMap (Namespace options) (ConfigMapName options))
  else if bool_decide (Name options = "external-services")
  then wrap OfK8SExternalService
         (setupOutputK8SExternalService (Namespace options) (ObjectLabels options))
  else if bool_decide (Name options = "")
  then inl "no output defined"
  else inl ("unknown output: `" ++ Name options ++ "'").

End Setup.

Arguments OutputStdout {_ _ _}.
Arguments OfFile {_ _ _} o.
Arguments OfK8SConfigMap {_ _ _} o.
Arguments OfK8SExternalService {_ _ _} o.
Arguments wrap {_ _ _ _} f r.
Arguments Setup {_ _ _} _ _ _ options.

Definition known (name : string) : Prop :=
  name ∈ ["stdout"; "file"; "configmap"; "external-services"].

End outputs.

(** ** Serializer: [yaml.Marshal] on a [[]StaticConfig]

    The encoder belongs to [gopkg.in/yaml.v1].  The layout below is the one
    its emitter gives a slice of [StaticConfig]: the empty collection in flow
    style, every other one in block style, a sequence inside a mapping at
    the indentation of its key, the fields of the struct in the order of
    their declaration.  How a string scalar is written (plain or quoted) and
    in which order the keys of a map come are left to the two parameters. *)

Module yaml.

Section Marshal.
(** The text of a string scalar at an indentation. *)
Variable emit_scalar : nat → string → string.
(** The entries of a map in the key order of the encoder. *)
Variable sorted : gmap string string → list (string * string).

Definition emit_targets (targets : list string) : string :=
  match targets with
  | [] => " []" ++ LF
  | _ => LF ++ String.concat "" (map (λ t, "  - " ++ emit_scalar 4 t ++ LF) targets)
  end.

Definition emit_labels (labels : gmap string string) : string :=
  match sorted labels with
  | [] => " {}" ++ LF
  | kvs =>
      LF ++ String.concat ""
              (map (λ kv, "    " ++ emit_scalar 4 kv.1 ++ ": "
                          ++ emit_scalar 6 kv.2 ++ LF) kvs)
  end.

Definition emit_entry (c : StaticConfig) : string :=
  "- targets:" ++ emit_targets (Targets c)
  ++ "  labels:" ++ emit_labels (Labels c).

Definition Marshal (fileSdConfig : list StaticConfig) : error + string :=
  match fileSdConfig with
  | [] => inr ("[]" ++ LF)
  | _ => inr (String.concat "" (map emit_entry fileSdConfig))
  end.

End Marshal.

End yaml.

(** ** JSON texts (RFC 8259)

    A recogniser of the JSON grammar, against which the request body of
    [getNodes] is checked.  [parse fuel what s] reads one item at the head of
    [s] and returns the rest of the text. *)

Module json.
Import strings.

Definition is_ws (c : ascii) : bool :=
  is_byte c " " || is_byte c (ascii_of_N 9) || is_byte c (ascii_of_N 10)
  || is_byte c (ascii_of_N 13).

Fixpoint skip_ws (s : string) : string :=
  match s with
  | String c r => if is_ws c then skip_ws r else s
  | EmptyString => s
  end.

(** The rest of a string literal after its opening quote. *)
Fixpoint string_tail (s : string) : option string :=
  match s with
  | EmptyString => None
  | String c r =>
      if is_byte c (ascii_of_N 34) then Some r
      else if is_byte c (ascii_of_N 92) then
        match r with
        | String e r' =>
            if is_byte e (ascii_of_N 34) || is_byte e (ascii_of_N 92)
               || url.one_of "/bfnrt" e
            then string_tail r'
            else if is_byte e "u" then
              match r' with
              | String h1 (String h2 (String h3 (String h4 r''))) =>
                  if url.ishex h1 && url.ishex h2 && url.ishex h3 && url.ishex h4
                  then string_tail r'' else None
              | _ => None
              end
            else None
        | EmptyString => None
        end
      else if (N_of_ascii c <? 32)%N then None
      else string_tail r
  end.

Fixpoint skip_digits (s : string) : string :=
  match s with
  | String c r => if url.isdigit c then skip_digits r else s
  | EmptyString => s
  end.

Definition digits1 (s : string) : option string :=
  match s with
  | String c r => if url.isdigit c then Some (skip_digits r) else None
  | EmptyString => None
  end.

Definition number (s : string) : option string :=
  let s := match s with
           | String c r => if is_byte c "-" then r else s
           | EmptyString => s
           end in
  let int :=
    match s with
    | String c r =>
        if is_byte c "0" then Some r
        else if between "1" "9" c then Some (skip_digits r)
        else None
    | EmptyString => None
    end in
  let frac :=
    match int with
    | Some (String c r as s) => if is_byte c "." then digits1 r else Some s
    | other => other
    end in
  match frac with
  | Some (String c r as s) =>
      if is_byte c "e" || is_byte c "E" then
        match r with
        | String sign r' =>
            if is_byte sign "+" || is_byte sign "-" then digits1 r' else digits1 r
        | EmptyString => None
        end
      else Some s
  | other => other
  end.

Definition literal (lit s : string) : option string :=
  if HasPrefix s lit
  then Some (String.substring (String.length lit) (String.length s - String.length lit) s)
  else None.

Inductive item := Value | Members | Elements.

Fixpoint parse (fuel : nat) (what : item) (s : string) : option string :=
  match fuel with
  | 0 => None
  | S fuel =>
      match what, s with
      | Value, String c r =>
          if is_byte c (ascii_of_N 34) then string_tail r
          else if is_byte c "{" then
            match skip_ws r with
            | String c' r' as m => if is_byte c' "}" then Some r' else parse fuel Members m
            | EmptyString => None
            end
          else if is_byte c "[" then
            match skip_ws r with
            | String c' r' as m => if is_byte c' "]" then Some r' else parse fuel Elements m
            | EmptyString => None
            end
          else if is_byte c "t" then literal "true" s
          else if is_byte c "f" then literal "false" s
          else if is_byte c "n" then literal "null" s
          else number s
      | Members, String c r =>
          if is_byte c (ascii_of_N 34) then
            match string_tail r ≫= (λ r, Some (skip_ws r)) with
            | Some (String colon r) =>
                if is_byte colon ":" then
                  match parse fuel Value (skip_ws r) ≫= (λ r, Some (skip_ws r)) with
                  | Some (String d r) =>
                      if is_byte d "," then parse fuel Members (skip_ws r)
                      else if is_byte d "}" then Some r
                      else None
                  | _ => None
                  end
                else None
            | _ => None
            end
          else None
      | Elements, _ =>
          match parse fuel Value s ≫= (λ r, Some (skip_ws r)) with
          | Some (String d r) =>
              if is_byte d "," then parse fuel Elements (skip_ws r)
              else if is_byte d "]" then Some r
              else None
          | _ => None
          end
      | _, EmptyString => None
      end
  end.

(** A JSON text: white space, one value, white space. *)
Definition valid (doc : string) : bool :=
  match parse (2 * String.length doc + 2) Value (skip_ws doc) with
  | Some r => bool_decide (skip_ws r = "")
  | None => false
  end.

End json.

(** A byte that a JSON string literal may hold as it is. *)
Definition json_plain (c : ascii) : bool :=
  negb (strings.is_byte c (ascii_of_N 34)) && negb (strings.is_byte c (ascii_of_N 92))
  && negb (N_of_ascii c <? 32)%N.

(** ** What the mapper is expected to build

    The configs of one node along a visiting order, and of a list of nodes;
    an entry whose URL does not parse has none. *)

Section Expected.
Variable Parse : string → error + URL.
Variable range : MapOrder.

Definition entryConfig (node : Node) (kv : string * string) : option StaticConfig :=
  match Parse kv.2 with
  | inl _ => None
  | inr u => Some (staticConfig node kv.1 u)
  end.

Definition visitConfigs (node : Node) (visit : list (string * string))
    : list StaticConfig :=
  omap (entryConfig node) visit.

Fixpoint nodesConfigs (i : nat) (nodes : list Node) : list StaticConfig :=
  match nodes with
  | [] => []
  | node :: nodes =>
      visitConfigs node (range i (Exporters node)) ++ nodesConfigs (S i) nodes
  end.

Definition parses (target : string) : Prop := ∃ u, Parse target = inr u.

Definition parsesb (target : string) : bool :=
  match Parse target with
  | inl _ => false
  | inr _ => true
  end.

(** Every exporter URL of every node parses. *)
Definition all_parse (nodes : list Node) : Prop :=
  ∀ node jobName target,
    node ∈ nodes → Exporters node !! jobName = Some target → parses target.

Definition all_parseb (nodes : list Node) : bool :=
  forallb (λ node, forallb (λ kv, parsesb kv.2) (map_to_list (Exporters node))) nodes.

End Expected.

(** The property of emitted targets that is put to the test below: whenever the mapper succeeds, the single
    target of every config it emits is a non-empty host. *)
Definition targets_never_empty (Parse : string → error + URL) (range : MapOrder)
    (nodes : list Node) : Prop :=
  ∀ out, mapTargets Parse range nodes = inr out →
         Forall (λ c, ∃ host, Targets c = [host] ∧ host ≠ "") out.

(** ** Sample inputs *)

Definition node1 : Node :=
  {| Certname := "node1";
     Exporters := {[ "job1" := "http://1.2.3.4:9100/metrics" ]} |}.

Definition node2 : Node :=
  {| Certname := "node2";
     Exporters := {[ "node" := "http://10.0.0.2:9100/metrics";
                     "apache" := "https://10.0.0.2:9117/metrics" ]} |}.

Definition node_bad : Node :=
  {| Certname := "node3"; Exporters := {[ "job1" := "::bad-url" ]} |}.

(** An exporter written without its scheme. *)
Definition node_noscheme : Node :=
  {| Certname := "node4"; Exporters := {[ "job1" := "localhost:9100/metrics" ]} |}.

Definition quoted (s : string) : string := dquote ++ s ++ dquote.

Definition inventory1 : string :=
  "[{" ++ quoted "certname" ++ ":" ++ quoted "node1" ++ "," ++ quoted "value" ++ ":{"
  ++ quoted "job1" ++ ":" ++ quoted "http://1.2.3.4:9100/metrics" ++ "}}]".

Definition inventory_bad : string :=
  "[{" ++ quoted "certname" ++ ":" ++ quoted "node1" ++ "," ++ quoted "value" ++ ":{"
  ++ quoted "job1" ++ ":" ++ quoted "http://1.2.3.4:9100/metrics" ++ "}},{"
  ++ quoted "certname" ++ ":" ++ quoted "node3" ++ "," ++ quoted "value" ++ ":{"
  ++ quoted "job1" ++ ":" ++ quoted "::bad-url" ++ "}}]".

(** A decoder for the examples: it knows the documents above and the empty
    array, decoded by hand, and rejects every other body. *)
Definition sample_Unmarshal (body : string) : error + list Node :=
  if bool_decide (body = inventory1) then inr [node1]
  else if bool_decide (body = inventory_bad) then inr [node1; node_bad]
  else if bool_decide (body = "[]") then inr []
  else inl "invalid character".

(** The directory of a slash-separated path that needs no cleaning. *)
Definition sample_Dir (path : string) : string :=
  match strings.CutLast "/" path with
  | Some (EmptyString, _) => "/"
  | Some (dir, _) => dir
  | None => "."
  end.

(** Map entries by the byte order of their keys. *)
Definition key_le (a b : string * string) : Prop := String.leb a.1 b.1 = true.

Global Instance key_le_dec a b : Decision (key_le a b) :=
  decide (String.leb a.1 b.1 = true).

Definition sample_sorted (m : gmap string string) : list (string * string) :=
  merge_sort key_le (map_to_list m).

(** An implementation of the libraries for the examples: scalars are
    written plain and map keys come in byte order. *)
Definition sample_externals : Externals :=
  {| url_Parse := url.Parse;
     json_Unmarshal := sample_Unmarshal;
     yaml_Marshal := yaml.Marshal (λ _ s, s) sample_sorted;
     filepath_Dir := sample_Dir;
     fmt_Sprintf := λ format, format;
     tls_X509KeyPair := λ _ _, None;
     Duration_String := λ d, pretty (d / 1000000000)%Z ++ "s" |}.

Definition sample_config (puppetdb output : string) : Config :=
  {| PuppetDBURL := puppetdb;
     CertFile := "certs/client.pem";
     KeyFile := "certs/client.key";
     CACertFile := "certs/cacert.pem";
     SSLSkipVerify := false;
     Query := "facts[certname, value] { name='prometheus_exporters' and nodes { deactivated is null } }";
     Output := output;
     File := "/etc/prometheus/targets/prometheus-puppetdb/targets.yml";
     ConfigMap := "prometheus-puppetdb";
     NameSpace := "default";
     Sleep := 5000000000 |}.

(** A world with nothing on disk, no cluster, and a network that answers
    [replies]. *)
Definition sample_world (replies : list (error + Response)) : World :=
  {| network := replies; sent := []; dirs := ∅; files := ∅; stdout := "";
     logged := []; slept := []; cluster := None |}.

(** ** Vocabulary of the further properties *)

(** The label names of a static target config. *)
Definition label_keys : gset string :=
  {[ "certname"; "host"; "metrics_path"; "job"; "scheme" ]}.

(** The world [w'] differs from [w] at most in the log. *)
Definition only_log_changed (w w' : World) : Prop :=
  network w' = network w ∧ sent w' = sent w ∧ dirs w' = dirs w
  ∧ files w' = files w ∧ stdout w' = stdout w ∧ slept w' = slept w
  ∧ cluster w' = cluster w.

(** The world [w'] differs from [w] at most in the network, the requests
    sent and the log. *)
Definition only_polled (w w' : World) : Prop :=
  dirs w' = dirs w ∧ files w' = files w ∧ stdout w' = stdout w
  ∧ slept w' = slept w ∧ cluster w' = cluster w.

(** A reply that a poll turns into a rendering: a response with a readable
    body that decodes to nodes whose exporter URLs all parse. *)
Definition good_reply `{Externals} (r : error + Response) : Prop :=
  ∃ status body nodes,
    r = inr {| StatusCode := status; ReadAll := inr body |}
    ∧ json_Unmarshal body = inr nodes
    ∧ all_parse url_Parse nodes.

(** The bytes [c] are what a poll along [range] renders from the reply
    [r]. *)
Definition rendering_of `{Externals} (range : MapOrder) (r : error + Response)
    (c : string) : Prop :=
  ∃ status body nodes configs,
    r = inr {| StatusCode := status; ReadAll := inr body |}
    ∧ json_Unmarshal body = inr nodes
    ∧ mapTargets url_Parse range nodes = inr configs
    ∧ yaml_Marshal configs = inr c.

(** ** Go's [encoding/json]: [json.Unmarshal] into a [[]Node]

    The decoder belongs to Go's standard library.  The functions below
    follow [encoding/json] (decode.go, scanner.go) and [unicode/utf8] for a
    destination of type [[]Node]: [checkValid] first (the grammar of the
    recogniser above and the nesting limit of the scanner), then the value is
    stored into the slice as [value], [array], [object] and [literalStore]
    do it: [null] leaves a string or a struct as it is and makes a slice or a
    map nil, a JSON value of the wrong kind is an [UnmarshalTypeError], the
    keys of an object are matched with the field names [certname] and [value]
    without regard to case, other keys are skipped, and string literals are
    unquoted with malformed UTF-8 and lone surrogates replaced by U+FFFD.
    The decoder keeps the first error and goes on; the model stops at it,
    which gives the same error.  The text of an error is shortened. *)

Module encoding_json.
Import strings.

#[local] Set Warnings "-register-all".

Inductive value :=
  | JNull
  | JBool (b : bool)
  | JNumber (text : string)
  | JString (s : string)
  | JArray (elems : list value)
  | JObject (members : list (string * value)).

Definition byte_of (n : N) : string := String (ascii_of_N n) EmptyString.

Definition in_range (lo hi : N) (c : ascii) : bool :=
  (lo <=? N_of_ascii c)%N && (N_of_ascii c <=? hi)%N.

(** The size of the UTF-8 sequence at the head of [s] as [utf8.DecodeRune]
    finds it, for a first byte of 128 or more; 0 for a malformed or cut-off
    sequence (a [RuneError] of width 1). *)
Definition rune_size (s : string) : nat :=
  match s with
  | EmptyString => 0
  | String b0 r =>
      let second (size : nat) (lo hi : N) : nat :=
        match size, r with
        | 2, String b1 _ => if in_range lo hi b1 then 2 else 0
        | 3, String b1 (String b2 _) =>
            if in_range lo hi b1 && in_range 128 191 b2 then 3 else 0
        | 4, String b1 (String b2 (String b3 _)) =>
            if in_range lo hi b1 && in_range 128 191 b2 && in_range 128 191 b3
            then 4 else 0
        | _, _ => 0
        end in
      if in_range 194 223 b0 then second 2 128%N 191%N
      else if in_range 224 224 b0 then second 3 160%N 191%N
      else if in_range 225 236 b0 then second 3 128%N 191%N
      else if in_range 237 237 b0 then second 3 128%N 159%N
      else if in_range 238 239 b0 then second 3 128%N 191%N
      else if in_range 240 240 b0 then second 4 144%N 191%N
      else if in_range 241 243 b0 then second 4 128%N 191%N
      else if in_range 244 244 b0 then second 4 128%N 143%N
      else 0
  end.

(** [utf8.EncodeRune] for a code point that is no surrogate. *)
Definition utf8_encode (cp : N) : string :=
  (if cp <? 128 then byte_of cp
   else if cp <? 2048 then byte_of (192 + cp / 64) ++ byte_of (128 + cp mod 64)
   else if cp <? 65536 then
     byte_of (224 + cp / 4096) ++ byte_of (128 + (cp / 64) mod 64)
     ++ byte_of (128 + cp mod 64)
   else
     byte_of (240 + cp / 262144) ++ byte_of (128 + (cp / 4096) mod 64)
     ++ byte_of (128 + (cp / 64) mod 64) ++ byte_of (128 + cp mod 64))%N.

(** U+FFFD in UTF-8. *)
Definition replacement : string := byte_of 239 ++ byte_of 191 ++ byte_of 189.

Definition hex4 (h1 h2 h3 h4 : ascii) : N :=
  (((url.unhex h1 * 16 + url.unhex h2) * 16 + url.unhex h3) * 16 + url.unhex h4)%N.

Definition all_hex (h1 h2 h3 h4 : ascii) : bool :=
  url.ishex h1 && url.ishex h2 && url.ishex h3 && url.ishex h4.

Definition prepend (p : string) (r : option (string * string)) : option (string * string) :=
  match r with
  | Some (t, rest) => Some (p ++ t, rest)
  | None => None
  end.

(** [unquoteBytes] on the text after the opening quote: the decoded string
    and the text after the closing quote. *)
Fixpoint unquote_tail (s : string) : option (string * string) :=
  match s with
  | EmptyString => None
  | String c r =>
      if is_byte c (ascii_of_N 34) then Some (EmptyString, r)
      else if is_byte c (ascii_of_N 92) then
        match r with
        | EmptyString => None
        | String e r' =>
            if is_byte e (ascii_of_N 34) || is_byte e (ascii_of_N 92) || is_byte e "/"
            then prepend (String e EmptyString) (unquote_tail r')
            else if is_byte e "b" then prepend (byte_of 8) (unquote_tail r')
            else if is_byte e "f" then prepend (byte_of 12) (unquote_tail r')
            else if is_byte e "n" then prepend (byte_of 10) (unquote_tail r')
            else if is_byte e "r" then prepend (byte_of 13) (unquote_tail r')
            else if is_byte e "t" then prepend (byte_of 9) (unquote_tail r')
            else if is_byte e "u" then
              match r' with
              | String h1 (String h2 (String h3 (String h4 r''))) =>
                  if negb (all_hex h1 h2 h3 h4) then None
                  else
                    let rr := hex4 h1 h2 h3 h4 in
                    if negb ((55296 <=? rr) && (rr <? 57344))%N
                    then prepend (utf8_encode rr) (unquote_tail r'')
                    else
                      (* a surrogate: a pair with the escape that follows,
                         or U+FFFD *)
                      match r'' with
                      | String b (String u
                          (String g1 (String g2 (String g3 (String g4 r3))))) =>
                          let rr1 := hex4 g1 g2 g3 g4 in
                          if is_byte b (ascii_of_N 92) && is_byte u "u"
                             && all_hex g1 g2 g3 g4
                             && (rr <? 56320)%N
                             && ((56320 <=? rr1) && (rr1 <? 57344))%N
                          then prepend
                                 (utf8_encode ((rr - 55296) * 1024 + (rr1 - 56320) + 65536)%N)
                                 (unquote_tail r3)
                          else prepend replacement (unquote_tail r'')
                      | _ => prepend replacement (unquote_tail r'')
                      end
              | _ => None
              end
            else None
        end
      else if (N_of_ascii c <? 32)%N then None
      else if (N_of_ascii c <? 128)%N then prepend (String c EmptyString) (unquote_tail r)
      else
        match rune_size s, r with
        | 2, String b1 r1 =>
            prepend (String c (String b1 EmptyString)) (unquote_tail r1)
        | 3, String b1 (String b2 r2) =>
            prepend (String c (String b1 (String b2 EmptyString))) (unquote_tail r2)
        | 4, String b1 (String b2 (String b3 r3)) =>
            prepend (String c (String b1 (String b2 (String b3 EmptyString))))
              (unquote_tail r3)
        | _, _ => prepend replacement (unquote_tail r)
        end
  end.

(** The nesting limit of the scanner: more than 10000 open arrays and
    objects are an error. *)
Fixpoint within_depth (depth : N) (in_string : bool) (s : string) : bool :=
  match s with
  | EmptyString => true
  | String c r =>
      if in_string then
        if is_byte c (ascii_of_N 92) then
          match r with
          | String _ r' => within_depth depth true r'
          | EmptyString => true
          end
        else within_depth depth (negb (is_byte c (ascii_of_N 34))) r
      else if is_byte c (ascii_of_N 34) then within_depth depth true r
      else if is_byte c "{" || is_byte c "[" then
        (depth <? 10000)%N && within_depth (depth + 1) false r
      else if is_byte c "}" || is_byte c "]" then within_depth (depth - 1) false r
      else within_depth depth false r
  end.

Definition checkValid (data : string) : bool :=
  json.valid data && within_depth 0 false data.

(** *** The value of a JSON text *)

Inductive item := Value | Members | Elements.

Inductive parsed :=
  | PValue (v : value)
  | PMembers (members : list (string * value))
  | PElements (elems : list value).

Definition token (s rest : string) : string :=
  String.substring 0 (String.length s - String.length rest) s.

Fixpoint parse (fuel : nat) (what : item) (s : string) : option (parsed * string) :=
  match fuel with
  | 0 => None
  | S fuel =>
      match what, s with
      | Value, String c r =>
          if is_byte c (ascii_of_N 34) then
            match unquote_tail r with
            | Some (str, rest) => Some (PValue (JString str), rest)
            | None => None
            end
          else if is_byte c "{" then
            match json.skip_ws r with
            | String c' r' as m =>
                if is_byte c' "}" then Some (PValue (JObject []), r')
                else match parse fuel Members m with
                     | Some (PMembers members, rest) => Some (PValue (JObject members), rest)
                     | _ => None
                     end
            | EmptyString => None
            end
          else if is_byte c "[" then
            match json.skip_ws r with
            | String c' r' as m =>
                if is_byte c' "]" then Some (PValue (JArray []), r')
                else match parse fuel Elements m with
                     | Some (PElements elems, rest) => Some (PValue (JArray elems), rest)
                     | _ => None
                     end
            | EmptyString => None
            end
          else if is_byte c "t" then
            match json.literal "true" s with
            | Some rest => Some (PValue (JBool true), rest)
            | None => None
            end
          else if is_byte c "f" then
            match json.literal "false" s with
            | Some rest => Some (PValue (JBool false), rest)
            | None => None
            end
          else if is_byte c "n" then
            match json.literal "null" s with
            | Some rest => Some (PValue JNull, rest)
            | None => None
            end
          else
            match json.number s with
            | Some rest => Some (PValue (JNumber (token s rest)), rest)
            | None => None
            end
      | Members, String c r =>
          if is_byte c (ascii_of_N 34) then
            match unquote_tail r with
            | Some (key, r1) =>
                match json.skip_ws r1 with
                | String colon r2 =>
                    if is_byte colon ":" then
                      match parse fuel Value (json.skip_ws r2) with
                      | Some (PValue v, r3) =>
                          match json.skip_ws r3 with
                          | String d r4 =>
                              if is_byte d "," then
                                match parse fuel Members (json.skip_ws r4) with
                                | Some (PMembers members, rest) =>
                                    Some (PMembers ((key, v) :: members), rest)
                                | _ => None
                                end
                              else if is_byte d "}" then Some (PMembers [(key, v)], r4)
                              else None
                          | EmptyString => None
                          end
                      | _ => None
                      end
                    else None
                | EmptyString => None
                end
            | None => None
            end
          else None
      | Elements, _ =>
          match parse fuel Value s with
          | Some (PValue v, r1) =>
              match json.skip_ws r1 with
              | String d r2 =>
                  if is_byte d "," then
                    match parse fuel Elements (json.skip_ws r2) with
                    | Some (PElements elems, rest) => Some (PElements (v :: elems), rest)
                    | _ => None
                    end
                  else if is_byte d "]" then Some (PElements [v], r2)
                  else None
              | EmptyString => None
              end
          | _ => None
          end
      | _, EmptyString => None
      end
  end.

(** The value of a valid JSON text; [None] for a text [checkValid]
    refuses. *)
Definition document (data : string) : option value :=
  if checkValid data then
    match parse (2 * String.length data + 2) Value (json.skip_ws data) with
    | Some (PValue v, _) => Some v
    | _ => None
    end
  else None.

(** *** Storing a value into a [[]Node] *)

Definition kind_of (v : value) : string :=
  match v with
  | JNull => "null"
  | JBool _ => "bool"
  | JNumber _ => "number"
  | JString _ => "string"
  | JArray _ => "array"
  | JObject _ => "object"
  end.

Definition type_error (v : value) (goType : string) : error :=
  "json: cannot unmarshal " ++ kind_of v ++ " into Go value of type " ++ goType.

(** [literalStore] and the refusals of [array] and [object] for a
    destination of kind string holding [old]. *)
Definition store_string (old : string) (v : value) : error + string :=
  match v with
  | JString s => inr s
  | JNull => inr old
  | _ => inl (type_error v "string")
  end.

(** The entries of an object stored one by one into a map; every entry
    starts from the zero string, a later entry replaces an earlier one with
    the same key. *)
Fixpoint store_entries (m : gmap string string) (members : list (string * value))
    : error + gmap string string :=
  match members with
  | [] => inr m
  | (k, v) :: members =>
      match store_string "" v with
      | inl err => inl err
      | inr s => store_entries (<[k := s]> m) members
      end
  end.

(** [object] and [literalStore] for a destination of type
    [map[string]string] holding [old]. *)
Definition store_map (old : gmap string string) (v : value)
    : error + gmap string string :=
  match v with
  | JObject members => store_entries old members
  | JNull => inr ∅
  | _ => inl (type_error v "map[string]string")
  end.

(** Field names are matched exactly or without regard to the case of ASCII
    letters (neither name holds a letter with a fold outside ASCII). *)
Definition equalFold (name key : string) : bool :=
  bool_decide (ToLower key = name).

(** The members of an object stored into a [Node]: [certname] into
    [Certname], [value] into [Exporters], any other key skipped. *)
Fixpoint store_fields (node : Node) (members : list (string * value)) : error + Node :=
  match members with
  | [] => inr node
  | (key, v) :: members =>
      if equalFold "certname" key then
        match store_string (Certname node) v with
        | inl err => inl err
        | inr s => store_fields {| Certname := s; Exporters := Exporters node |} members
        end
      else if equalFold "value" key then
        match store_map (Exporters node) v with
        | inl err => inl err
        | inr m => store_fields {| Certname := Certname node; Exporters := m |} members
        end
      else store_fields node members
  end.

(** [object] and [literalStore] for a destination of type [Node]. *)
Definition store_node (old : Node) (v : value) : error + Node :=
  match v with
  | JObject members => store_fields old members
  | JNull => inr old
  | _ => inl (type_error v "main.Node")
  end.

(** The elements of an array, each stored into a fresh [Node]. *)
Fixpoint store_elements (elems : list value) : error + list Node :=
  match elems with
  | [] => inr []
  | v :: elems =>
      match store_node {| Certname := ""; Exporters := ∅ |} v with
      | inl err => inl err
      | inr node =>
          match store_elements elems with
          | inl err => inl err
          | inr nodes => inr (node :: nodes)
          end
      end
  end.

(** [array] and [literalStore] for the destination [&nodes], [nodes] being
    nil: an array fills the slice, [null] leaves it nil. *)
Definition store_nodes (v : value) : error + list Node :=
  match v with
  | JArray elems => store_elements elems
  | JNull => inr []
  | _ => inl (type_error v "[]main.Node")
  end.

(** [json.Unmarshal(data, &nodes)]. *)
Definition Unmarshal (data : string) : error + list Node :=
  match document data with
  | None => inl "json: syntax error"
  | Some v => store_nodes v
  end.

End encoding_json.

(** The libraries of the examples, with the decoder of [encoding/json]. *)
Definition decoding_externals : Externals :=
  {| url_Parse := url.Parse;
     json_Unmarshal := encoding_json.Unmarshal;
     yaml_Marshal := yaml.Marshal (λ _ s, s) sample_sorted;
     filepath_Dir := sample_Dir;
     fmt_Sprintf := λ format, format;
     tls_X509KeyPair := λ _ _, None;
     Duration_String := λ d, pretty (d / 1000000000)%Z ++ "s" |}.

(** A body that is a JSON array of node records: a JSON text whose value
    is an array that decodes, element by element, into nodes. *)
Definition node_array (body : string) : Prop :=
  ∃ elems nodes,
    encoding_json.document body = Some (encoding_json.JArray elems)
    ∧ encoding_json.store_elements elems = inr nodes.

(** The fetch succeeds exactly on the bodies that are JSON arrays of node
    records, whatever the status. *)
Definition succeeds_iff_node_array `{Externals}
    (client : Client) (puppetdb query : string) (w : World) : Prop :=
  ∀ status body rest,
    network w = inr {| StatusCode := status; ReadAll := inr body |} :: rest →
    (∃ nodes, (getNodes client puppetdb query w).1 = inr (inr nodes))
    ↔ node_array body.

(** ** [loadConfig] ([main.go], lines 80-100) and [init] from its first
    line (lines 164-170)

    [parser.Parse] belongs to go-flags.  It either fails, after printing
    what it has to say ([printed] is what of it goes to the standard
    output), or fills the configuration: the two flags [Version] and
    [Manpage] and the other fields, the [Config] above. *)

Record Flags := {
  Version : bool;
  Manpage : bool;
  Settings : Config;
}.

Inductive parse_result :=
  | ParseError (err : error) (printed : string)
  | Parsed (c : Flags).

Definition print (text : string) : M unit :=
  λ w, (inr (), set_stdout (stdout w ++ text) w).

Definition os_Exit {A} (code : Z) : M A := λ w, (inl (Exit code), w).

(** [log.Fatal] logs and calls [os.Exit(1)]. *)
Definition log_Fatal {A} (err : error) : M A := log_Fatalf err.

(** [loadConfig(version)] with its results [(c, err)]; [r] is what
    [parser.Parse] does, [manpage] the text [parser.WriteManPage] writes
    into the buffer. *)
Definition loadConfig `{Externals} (version manpage : string) (r : parse_result)
    : M (Config * option error) :=
  match r with
  | ParseError err printed => print printed;; log_Fatal err
  | Parsed c =>
      if Version c then
        print ("Prometheus-puppetdb v" ++ version ++ LF);;
        os_Exit 0
      else if Manpage c then
        fmt_Printf manpage;;
        os_Exit 0
      else ret (Settings c, None)
  end.

(** [init] as a whole: lines 167-170, then the rest, [init] above. *)
Definition init_full `{Externals} (version manpage : string) (r : parse_result)
    : M Client :=
  let* loaded := loadConfig version manpage r in
  match loaded with
  | (_, Some err) => log_Fatalf ("failed to load config: " ++ err)
  | (cfg, None) => init cfg
  end.

(** The world [w'] differs from [w] at most in the standard output and the
    log. *)
Definition only_output_changed (w w' : World) : Prop :=
  network w' = network w ∧ sent w' = sent w ∧ dirs w' = dirs w
  ∧ files w' = files w ∧ slept w' = slept w ∧ cluster w' = cluster w.

(** * Theorems *)

(** ** [url.Parse] on sample URLs *)

Example Parse_http :
  url.Parse "http://1.2.3.4:9100/metrics"
  = inr {| Scheme := "http"; Host := "1.2.3.4:9100"; Path := "/metrics" |}.
Proof. vm_compute. reflexivity. Qed.

Example Parse_bad : url.Parse "::bad-url" = inl "missing protocol scheme".
Proof. vm_compute. reflexivity. Qed.

Example Parse_relative :
  url.Parse "metrics" = inr {| Scheme := ""; Host := ""; Path := "metrics" |}.
Proof. vm_compute. reflexivity. Qed.

Example Parse_hostport :
  url.Parse "node1:9100/metrics" = inr {| Scheme := "node1"; Host := ""; Path := "" |}.
Proof. vm_compute. reflexivity. Qed.

Example Parse_user :
  url.Parse "HTTPS://bob:pw@[fe80::1%25eth0]:9100/a%20b?x=1#top"
  = inr {| Scheme := "https"; Host := "[fe80::1%eth0]:9100"; Path := "/a b" |}.
Proof. vm_compute. reflexivity. Qed.

(** ** The target mapper *)

Section MapperFacts.
Variable Parse : string → error + URL.
Variable range : MapOrder.

Lemma visitConfigs_cons node jobName target u visit :
  Parse target = inr u →
  visitConfigs Parse node ((jobName, target) :: visit)
  = staticConfig node jobName u :: visitConfigs Parse node visit.
Proof. intros Hu. unfold visitConfigs, entryConfig. simpl. by rewrite Hu. Qed.

Lemma rangeExporters_parses node visit acc :
  Forall (λ kv, parses Parse kv.2) visit →
  rangeExporters Parse node visit acc = inr (acc ++ visitConfigs Parse node visit)%list.
Proof.
  revert acc. induction visit as [|[jobName target] visit IH]; intros acc Hall.
  - simpl. by rewrite app_nil_r.
  - apply Forall_cons in Hall as [[u Hu] Hall]. simpl in Hu.
    rewrite (visitConfigs_cons _ _ _ u) by done.
    cbn [rangeExporters]. rewrite Hu.
    rewrite (IH _ Hall). by rewrite <- app_assoc.
Qed.

Lemma rangeExporters_fails node visit acc :
  Exists (λ kv, ¬ parses Parse kv.2) visit →
  ∃ err, rangeExporters Parse node visit acc = inl err.
Proof.
  revert acc. induction visit as [|[jobName target] visit IH]; intros acc Hex.
  - by apply Exists_nil in Hex.
  - simpl. destruct (Parse target) as [err|u] eqn:Hp; [by eexists|].
    apply Exists_cons in Hex as [Hbad|Hex]; [|by apply IH].
    exfalso. apply Hbad. by exists u.
Qed.

Lemma rangeExporters_inr node visit acc out :
  rangeExporters Parse node visit acc = inr out →
  Forall (λ kv, parses Parse kv.2) visit.
Proof.
  revert acc. induction visit as [|[jobName target] visit IH]; intros acc Hrun.
  - constructor.
  - simpl in Hrun. destruct (Parse target) as [err|u] eqn:Hp; [done|].
    constructor; [by exists u | by eapply IH].
Qed.

Lemma length_visitConfigs node visit :
  Forall (λ kv, parses Parse kv.2) visit →
  length (visitConfigs Parse node visit) = length visit.
Proof.
  induction 1 as [|[jobName target] visit [u Hu] _ IH]; [done|].
  simpl in Hu. rewrite (visitConfigs_cons _ _ _ u) by done. simpl. by rewrite IH.
Qed.

Lemma elem_of_visitConfigs node visit c :
  c ∈ visitConfigs Parse node visit ↔
  ∃ jobName target u,
    (jobName, target) ∈ visit ∧ Parse target = inr u ∧ c = staticConfig node jobName u.
Proof.
  unfold visitConfigs. rewrite list_elem_of_omap. split.
  - intros [[jobName target] [Hin Hc]]. unfold entryConfig in Hc. simpl in Hc.
    destruct (Parse target) as [|u] eqn:Hu; [done|]. exists jobName, target, u.
    by simplify_eq.
  - intros (jobName & target & u & Hin & Hu & ->). exists (jobName, target).
    split; [done|]. unfold entryConfig. simpl. by rewrite Hu.
Qed.

Lemma all_parseb_sound nodes : all_parseb Parse nodes = true → all_parse Parse nodes.
Proof.
  unfold all_parseb, all_parse. rewrite forallb_forall.
  intros Hb node jobName target Hin Hl.
  apply list_elem_of_In, Hb in Hin. rewrite forallb_forall in Hin.
  apply elem_of_map_to_list, list_elem_of_In, Hin in Hl.
  unfold parsesb, parses in *. simpl in Hl.
  destruct (Parse target) as [|u]; [done|by exists u].
Qed.

Hypothesis range_valid : valid_order range.

Lemma elem_of_range i (m : gmap string string) jobName target :
  (jobName, target) ∈ range i m ↔ m !! jobName = Some target.
Proof. rewrite (range_valid i m). apply elem_of_map_to_list. Qed.

Lemma length_range i (m : gmap string string) : length (range i m) = size m.
Proof. rewrite (range_valid i m). apply length_map_to_list. Qed.

Lemma all_parse_visit nodes node i :
  all_parse Parse nodes → node ∈ nodes →
  Forall (λ kv, parses Parse kv.2) (range i (Exporters node)).
Proof.
  intros Hall Hin. apply Forall_forall. intros [jobName target] Hkv. simpl.
  apply elem_of_range in Hkv. by eapply Hall.
Qed.

Lemma rangeNodes_parses i nodes acc :
  all_parse Parse nodes →
  rangeNodes Parse range i nodes acc = inr (acc ++ nodesConfigs Parse range i nodes)%list.
Proof.
  revert i acc. induction nodes as [|node nodes IH]; intros i acc Hall; simpl.
  - by rewrite app_nil_r.
  - rewrite rangeExporters_parses.
    2:{ eapply all_parse_visit; [done|]. by left. }
    rewrite IH.
    2:{ intros n j t Hn. apply Hall. by right. }
    by rewrite <- app_assoc.
Qed.

Lemma rangeNodes_fails i nodes acc node jobName target :
  node ∈ nodes → Exporters node !! jobName = Some target → ¬ parses Parse target →
  ∃ err, rangeNodes Parse range i nodes acc = inl err.
Proof.
  intros Hin Hlook Hbad. revert i acc.
  induction nodes as [|n nodes IH]; intros i acc; [by apply elem_of_nil in Hin|].
  simpl. destruct (rangeExporters Parse n (range i (Exporters n)) acc) as [err|acc'] eqn:Hrun;
    [by eexists|].
  apply elem_of_cons in Hin as [->|Hin]; [|by apply IH].
  apply rangeExporters_inr in Hrun.
  rewrite Forall_forall in Hrun.
  destruct Hbad. apply (Hrun (jobName, target)). by apply elem_of_range.
Qed.

Lemma rangeNodes_inr i nodes acc out :
  rangeNodes Parse range i nodes acc = inr out → all_parse Parse nodes.
Proof.
  intros Hrun node jobName target Hin Hlook.
  destruct (Parse target) as [err|u] eqn:Hu; [|by exists u].
  destruct (rangeNodes_fails i nodes acc node jobName target) as [e He]; try done.
  - intros [u Hu']. congruence.
  - congruence.
Qed.

Lemma length_nodesConfigs i nodes :
  all_parse Parse nodes →
  length (nodesConfigs Parse range i nodes) = sum_list (size ∘ Exporters <$> nodes).
Proof.
  revert i. induction nodes as [|node nodes IH]; intros i Hall; [done|].
  simpl. rewrite length_app, length_visitConfigs, length_range.
  - rewrite IH; [done|]. intros n j t Hn. apply Hall. by right.
  - eapply all_parse_visit; [done|]. by left.
Qed.

Lemma elem_of_nodesConfigs i nodes c :
  c ∈ nodesConfigs Parse range i nodes ↔
  ∃ node jobName target u,
    node ∈ nodes ∧ Exporters node !! jobName = Some target
    ∧ Parse target = inr u ∧ c = staticConfig node jobName u.
Proof.
  revert i. induction nodes as [|node nodes IH]; intros i; simpl.
  - split; [by intros ?%elem_of_nil|]. by intros (? & ? & ? & ? & ?%elem_of_nil & _).
  - rewrite elem_of_app, elem_of_visitConfigs, IH. split.
    + intros [(j & t & u & Hin & Hu & ->)|(n & j & t & u & Hn & Hl & Hu & ->)].
      * exists node, j, t, u. rewrite <- (elem_of_range i). repeat split; try done. by left.
      * exists n, j, t, u. repeat split; try done. by right.
    + intros (n & j & t & u & Hn & Hl & Hu & ->).
      apply elem_of_cons in Hn as [->|Hn].
      * left. exists j, t, u. by rewrite elem_of_range.
      * right. by exists n, j, t, u.
Qed.

End MapperFacts.

(** C1. When every exporter URL parses, the mapping loop of [getTargets]
    returns, and it returns one static target config per (node, exporter)
    pair: as many configs as the nodes have exporter entries together, the
    config of each pair among them, and each with exactly one target.  This
    holds along every order in which Go may visit the exporter maps. *)
Theorem mapper_one_config_per_exporter
    (Parse : string → error + URL) (range : MapOrder) (nodes : list Node) :
  valid_order range →
  all_parse Parse nodes →
  ∃ out,
    mapTargets Parse range nodes = inr out
    ∧ length out = sum_list (size ∘ Exporters <$> nodes)
    ∧ Forall (λ c, length (Targets c) = 1) out
    ∧ ∀ node jobName target u,
        node ∈ nodes → Exporters node !! jobName = Some target →
        Parse target = inr u → staticConfig node jobName u ∈ out.
Proof.
  intros Hrange Hall. exists (nodesConfigs Parse range 0 nodes).
  split; [|split; [|split]].
  - unfold mapTargets. by rewrite rangeNodes_parses.
  - by apply length_nodesConfigs.
  - apply Forall_forall. intros c Hc.
    apply elem_of_nodesConfigs in Hc as (n & j & t & u & _ & _ & _ & ->); done.
  - intros node jobName target u Hin Hl Hu.
    apply elem_of_nodesConfigs; [done|]. by exists node, jobName, target, u.
Qed.

Lemma mapper_one_config_per_exporter_witness :
  ∃ out,
    mapTargets url.Parse canonical_order [node1; node2] = inr out
    ∧ length out = sum_list (size ∘ Exporters <$> [node1; node2])
    ∧ Forall (λ c, length (Targets c) = 1) out
    ∧ ∀ node jobName target u,
        node ∈ [node1; node2] → Exporters node !! jobName = Some target →
        url.Parse target = inr u → staticConfig node jobName u ∈ out.
Proof.
  apply (mapper_one_config_per_exporter url.Parse canonical_order [node1; node2]).
  - intros i m. reflexivity.
  - apply all_parseb_sound. vm_compute. reflexivity.
Defined.

(** C3. The node [node1] with the single exporter
    [job1 -> http://1.2.3.4:9100/metrics] is mapped to exactly one config:
    target [1.2.3.4:9100], labels [certname = node1], [host = node1],
    [metrics_path = /metrics], [job = job1], [scheme = http]. *)
Theorem mapper_node1_example (range : MapOrder) :
  valid_order range →
  mapTargets url.Parse range
    [ {| Certname := "node1";
         Exporters := {[ "job1" := "http://1.2.3.4:9100/metrics" ]} |} ]
  = inr [ {| Targets := ["1.2.3.4:9100"];
             Labels := {[ "certname" := "node1"; "host" := "node1";
                          "metrics_path" := "/metrics"; "job" := "job1";
                          "scheme" := "http" ]} |} ].
Proof.
  intros Hrange. unfold mapTargets. cbn [rangeNodes Exporters].
  pose proof (Hrange 0 {[ "job1" := "http://1.2.3.4:9100/metrics" ]}) as Hvisit.
  rewrite map_to_list_singleton in Hvisit.
  apply Permutation_singleton_r in Hvisit. rewrite Hvisit.
  vm_compute. reflexivity.
Qed.

Lemma mapper_node1_example_witness :
  mapTargets url.Parse canonical_order
    [ {| Certname := "node1";
         Exporters := {[ "job1" := "http://1.2.3.4:9100/metrics" ]} |} ]
  = inr [ {| Targets := ["1.2.3.4:9100"];
             Labels := {[ "certname" := "node1"; "host" := "node1";
                          "metrics_path" := "/metrics"; "job" := "job1";
                          "scheme" := "http" ]} |} ].
Proof.
  apply (mapper_node1_example canonical_order).
  intros i m. reflexivity.
Defined.

(** C5, refuted as written: the exporter [localhost:9100/metrics] parses
    (as scheme [localhost] with an opaque rest), has no host, and is emitted
    with the empty string as its target. *)
Lemma mapper_emits_empty_target :
  mapTargets url.Parse canonical_order [node_noscheme]
  = inr [ {| Targets := [""];
             Labels := {[ "certname" := "node4"; "host" := "node4";
                          "metrics_path" := ""; "job" := "job1";
                          "scheme" := "localhost" ]} |} ]
  ∧ ¬ targets_never_empty url.Parse canonical_order [node_noscheme].
Proof.
  assert (mapTargets url.Parse canonical_order [node_noscheme]
          = inr [ {| Targets := [""];
                     Labels := {[ "certname" := "node4"; "host" := "node4";
                                  "metrics_path" := ""; "job" := "job1";
                                  "scheme" := "localhost" ]} |} ]) as Hrun.
  { vm_compute. reflexivity. }
  split; [done|]. intros Hclaim. specialize (Hclaim _ Hrun).
  apply Forall_cons in Hclaim as [(host & Heq & Hne) _].
  simpl in Heq. congruence.
Qed.

(** C5, amended: whenever the mapper succeeds, every config it emits comes
    from an exporter entry whose URL parsed, and its only target is the
    [Host] field of that parse, whatever it is; no check on the host is
    made. *)
Theorem mapper_target_is_parsed_host
    (Parse : string → error + URL) (range : MapOrder) (nodes : list Node)
    (out : list StaticConfig) :
  valid_order range →
  mapTargets Parse range nodes = inr out →
  Forall (λ c, ∃ node jobName target u,
             node ∈ nodes ∧ Exporters node !! jobName = Some target
             ∧ Parse target = inr u ∧ Targets c = [Host u]) out.
Proof.
  intros Hrange Hrun. unfold mapTargets in Hrun.
  pose proof (rangeNodes_inr _ _ Hrange _ _ _ _ Hrun) as Hall.
  rewrite rangeNodes_parses in Hrun by done. simplify_eq. simpl.
  apply Forall_forall. intros c Hc.
  apply elem_of_nodesConfigs in Hc as (n & j & t & u & Hn & Hl & Hu & ->); [|done].
  by exists n, j, t, u.
Qed.

Lemma mapper_target_is_parsed_host_witness :
  Forall (λ c, ∃ node jobName target u,
             node ∈ [node1; node_noscheme] ∧ Exporters node !! jobName = Some target
             ∧ url.Parse target = inr u ∧ Targets c = [Host u])
    (nodesConfigs url.Parse canonical_order 0 [node1; node_noscheme]).
Proof.
  apply (mapper_target_is_parsed_host url.Parse canonical_order [node1; node_noscheme]).
  - intros i m. reflexivity.
  - vm_compute. reflexivity.
Defined.

(** ** The inventory client and [getTargets] *)

Section ClientFacts.
Context `{Externals}.

(** [getNodes] in one equation: no request when the URL is refused by
    [http.NewRequest], otherwise one request, and the decoded body of
    whatever response comes back. *)
Lemma getNodes_run client puppetdb query w :
  getNodes client puppetdb query w =
  match url_Parse (puppetdb ++ "/pdb/query/v4") with
  | inl err => (inr (inl err), w)
  | inr _ =>
      (inr match network w with
           | [] => inl "connection refused"
           | inl err :: _ => inl err
           | inr resp :: _ =>
               match ReadAll resp with
               | inl err => inl err
               | inr body => json_Unmarshal body
               end
           end,
       after_request (inventory_request puppetdb query) w)
  end.
Proof.
  unfold getNodes, http_NewRequest.
  destruct (url_Parse (puppetdb ++ "/pdb/query/v4")) as [err|u]; [done|].
  unfold bind, client_Do, after_request, inventory_request, Header_Add. simpl.
  destruct (network w) as [|[err|resp] rest] eqn:Hnet; simpl.
  - unfold ret, set_network, set_sent. simpl. by rewrite Hnet.
  - reflexivity.
  - destruct (ReadAll resp); reflexivity.
Qed.

(** [getNodes] issues at most one request, and exactly one when the URL
    is accepted: a POST to [{base-url}/pdb/query/v4] with the JSON content
    type and the form of the query as body. *)
Lemma getNodes_sends_one_POST client puppetdb query w u :
  url_Parse (puppetdb ++ "/pdb/query/v4") = inr u →
  sent (getNodes client puppetdb query w).2
  = (sent w ++ [inventory_request puppetdb query])%list.
Proof. intros Hu. rewrite getNodes_run, Hu. reflexivity. Qed.

(** [getTargets] never returns bytes together with an error. *)
Lemma getTargets_error_no_bytes range client cfg w c err :
  (getTargets range client cfg w).1 = inr (c, Some err) → c = None.
Proof.
  unfold getTargets, bind.
  destruct (getNodes client (PuppetDBURL cfg) (Query cfg) w) as [[h|[e|nodes]] w'];
    simpl; [done| |].
  - unfold log_Errorf, ret. simpl. congruence.
  - destruct (mapTargets url_Parse range nodes) as [e|configs]; simpl; [congruence|].
    destruct (yaml_Marshal configs); simpl; congruence.
Qed.

Lemma getTargets_of_nodes range client cfg w w' nodes :
  getNodes client (PuppetDBURL cfg) (Query cfg) w = (inr (inr nodes), w') →
  getTargets range client cfg w =
  (inr match mapTargets url_Parse range nodes with
       | inl err => (None, Some err)
       | inr fileSdConfig =>
           match yaml_Marshal fileSdConfig with
           | inl err => (None, Some err)
           | inr c => (Some c, None)
           end
       end, w').
Proof.
  intros Hget. unfold getTargets, bind. rewrite Hget.
  destruct (mapTargets url_Parse range nodes) as [e|configs]; [done|].
  destruct (yaml_Marshal configs); done.
Qed.

End ClientFacts.

(** C2. When the inventory holds an exporter URL that does not parse, the
    mapping fails as a whole: the loop returns an error, and [getTargets]
    returns that error and nil bytes, along every order of map visits. *)
Theorem getTargets_parse_failure_aborts `{Externals}
    (range : MapOrder) (client : Client) (cfg : Config) (w w' : World)
    (nodes : list Node) (node : Node) (jobName target : string) :
  valid_order range →
  getNodes client (PuppetDBURL cfg) (Query cfg) w = (inr (inr nodes), w') →
  node ∈ nodes →
  Exporters node !! jobName = Some target →
  ¬ parses url_Parse target →
  ∃ err,
    mapTargets url_Parse range nodes = inl err
    ∧ getTargets range client cfg w = (inr (None, Some err), w').
Proof.
  intros Hrange Hget Hin Hl Hbad.
  destruct (rangeNodes_fails url_Parse range Hrange 0 nodes [] node jobName target)
    as [err Herr]; try done.
  exists err. split; [done|].
  rewrite (getTargets_of_nodes _ _ _ _ _ _ Hget).
  unfold mapTargets. by rewrite Herr.
Qed.

Lemma getTargets_parse_failure_aborts_witness :
  ∃ err,
    mapTargets url.Parse canonical_order [node1; node_bad] = inl err
    ∧ @getTargets sample_externals canonical_order http_client
        (sample_config "http://puppetdb:8080" "file")
        (sample_world [inr {| StatusCode := 200; ReadAll := inr inventory_bad |}])
      = (inr (None, Some err),
         after_request
           (inventory_request "http://puppetdb:8080"
              (Query (sample_config "http://puppetdb:8080" "file")))
           (sample_world [inr {| StatusCode := 200; ReadAll := inr inventory_bad |}])).
Proof.
  apply (@getTargets_parse_failure_aborts sample_externals canonical_order http_client
           (sample_config "http://puppetdb:8080" "file")
           (sample_world [inr {| StatusCode := 200; ReadAll := inr inventory_bad |}])
           _ [node1; node_bad] node_bad "job1" "::bad-url").
  - intros i m. reflexivity.
  - vm_compute. reflexivity.
  - vm_compute. right. left.
  - vm_compute. reflexivity.
  - intros [u Hu]. vm_compute in Hu. discriminate Hu.
Defined.

(** ** The fetch and the body of the response *)

Lemma store_nodes_inr (v : encoding_json.value) (nodes : list Node) :
  encoding_json.store_nodes v = inr nodes
  ↔ (v = encoding_json.JNull ∧ nodes = [])
    ∨ ∃ elems, v = encoding_json.JArray elems
               ∧ encoding_json.store_elements elems = inr nodes.
Proof.
  split.
  - destruct v; simpl; try done.
    + intros [= <-]. by left.
    + intros Hs. right. by eexists.
  - intros [[-> ->]|(elems & -> & Hs)]; done.
Qed.

Lemma Unmarshal_inr (data : string) (nodes : list Node) :
  encoding_json.Unmarshal data = inr nodes
  ↔ (encoding_json.document data = Some encoding_json.JNull ∧ nodes = [])
    ∨ ∃ elems, encoding_json.document data = Some (encoding_json.JArray elems)
               ∧ encoding_json.store_elements elems = inr nodes.
Proof.
  unfold encoding_json.Unmarshal.
  destruct (encoding_json.document data) as [v|].
  - rewrite store_nodes_inr. split.
    + intros [[-> ->]|(elems & -> & Hs)]; [by left|right; by eexists].
    + intros [[[= ->] ->]|(elems & [= ->] & Hs)]; [by left|right; by eexists].
  - split; [done|]. by intros [[? _]|(? & ? & _)].
Qed.

(** C10, refuted as written: a response with status 200 and the body
    [null] is a successful fetch, of no nodes, though [null] is no JSON
    array. *)
Lemma getNodes_accepts_null_body :
  (@getNodes decoding_externals http_client "http://puppetdb:8080" "nodes{}"
     (sample_world [inr {| StatusCode := 200; ReadAll := inr "null" |}])).1
  = inr (inr [])
  ∧ ¬ node_array "null"
  ∧ ¬ @succeeds_iff_node_array decoding_externals http_client
        "http://puppetdb:8080" "nodes{}"
        (sample_world [inr {| StatusCode := 200; ReadAll := inr "null" |}]).
Proof.
  assert ((@getNodes decoding_externals http_client "http://puppetdb:8080" "nodes{}"
             (sample_world [inr {| StatusCode := 200; ReadAll := inr "null" |}])).1
          = inr (inr [])) as Hrun by (vm_compute; reflexivity).
  assert (¬ node_array "null") as Hnot.
  { intros (elems & nodes & Hdoc & _). vm_compute in Hdoc. discriminate Hdoc. }
  split; [done|]. split; [done|].
  intros Hclaim. apply Hnot.
  apply (Hclaim 200%Z "null" []); [reflexivity|]. by exists [].
Qed.

(** C10, amended.  [getNodes] never looks at the status code: once the
    request went out and a response with a readable body came back, the
    fetch succeeds with [nodes] exactly when the body is a JSON text whose
    value is [null], and [nodes] is empty, or an array that decodes element
    by element into [nodes]; the status takes no part in it.  The decoder is
    the one of [encoding/json]. *)
Theorem getNodes_decides_by_body_alone `{Externals}
    (client : Client) (puppetdb query : string) (w : World) (u : URL)
    (status : Z) (body : string) (rest : list (error + Response)) :
  (∀ data, json_Unmarshal data = encoding_json.Unmarshal data) →
  url_Parse (puppetdb ++ "/pdb/query/v4") = inr u →
  network w = inr {| StatusCode := status; ReadAll := inr body |} :: rest →
  ∀ nodes,
    (getNodes client puppetdb query w).1 = inr (inr nodes)
    ↔ (encoding_json.document body = Some encoding_json.JNull ∧ nodes = [])
      ∨ ∃ elems,
          encoding_json.document body = Some (encoding_json.JArray elems)
          ∧ encoding_json.store_elements elems = inr nodes.
Proof.
  intros Hdec Hu Hnet nodes. rewrite getNodes_run, Hu, Hnet. simpl.
  rewrite Hdec, <- Unmarshal_inr. split; [by intros [= ->]|by intros ->].
Qed.

Lemma getNodes_decides_by_body_alone_witness :
  (@getNodes decoding_externals http_client "http://puppetdb:8080" "nodes{}"
     (sample_world [inr {| StatusCode := 503; ReadAll := inr inventory1 |}])).1
  = inr (inr [node1])
  ↔ (encoding_json.document inventory1 = Some encoding_json.JNull ∧ [node1] = [])
    ∨ ∃ elems,
        encoding_json.document inventory1 = Some (encoding_json.JArray elems)
        ∧ encoding_json.store_elements elems = inr [node1].
Proof.
  apply (@getNodes_decides_by_body_alone decoding_externals http_client
           "http://puppetdb:8080" "nodes{}"
           (sample_world [inr {| StatusCode := 503; ReadAll := inr inventory1 |}])
           {| Scheme := "http"; Host := "puppetdb:8080"; Path := "/pdb/query/v4" |}
           503 inventory1 []).
  - intros data. reflexivity.
  - vm_compute. reflexivity.
  - reflexivity.
Defined.

(** A server error whose body is an inventory is a successful fetch. *)
Example getNodes_503_with_inventory :
  (@getNodes decoding_externals http_client "http://puppetdb:8080" "nodes{}"
     (sample_world [inr {| StatusCode := 503; ReadAll := inr inventory1 |}])).1
  = inr (inr [node1]).
Proof. vm_compute. reflexivity. Qed.

(** A success whose body is a page of HTML, or a JSON object, is a failed
    fetch. *)
Example getNodes_200_with_html :
  (@getNodes decoding_externals http_client "http://puppetdb:8080" "nodes{}"
     (sample_world [inr {| StatusCode := 200; ReadAll := inr "<html></html>" |}])).1
  = inr (inl "json: syntax error").
Proof. vm_compute. reflexivity. Qed.

Example getNodes_200_with_object :
  (@getNodes decoding_externals http_client "http://puppetdb:8080" "nodes{}"
     (sample_world [inr {| StatusCode := 200; ReadAll := inr "{}" |}])).1
  = inr (inl "json: cannot unmarshal object into Go value of type []main.Node").
Proof. vm_compute. reflexivity. Qed.

(** ** The request body as a JSON text *)

Lemma string_tail_plain (q rest : string) :
  strings.all_bytes json_plain q = true →
  json.string_tail (q ++ dquote ++ rest) = Some rest.
Proof.
  induction q as [|c q IH]; intros Hq.
  - change (json.string_tail (String (ascii_of_N 34) rest) = Some rest).
    cbn [json.string_tail]. reflexivity.
  - cbn [strings.all_bytes] in Hq. apply andb_true_iff in Hq as [Hc Hq].
    unfold json_plain in Hc. apply andb_true_iff in Hc as [Hc H32].
    apply andb_true_iff in Hc as [H34 H92].
    apply negb_true_iff in H34, H92, H32.
    change (json.string_tail (String c (q ++ dquote ++ rest)) = Some rest).
    cbn [json.string_tail]. rewrite H34, H92, H32. by apply IH.
Qed.

Lemma parse_string_value (fuel : nat) (q rest : string) :
  strings.all_bytes json_plain q = true →
  json.parse (S fuel) json.Value (dquote ++ q ++ dquote ++ rest) = Some rest.
Proof.
  intros Hq.
  change (dquote ++ q ++ dquote ++ rest)
    with (String (ascii_of_N 34) (q ++ dquote ++ rest)).
  cbn [json.parse].
  change (strings.is_byte (ascii_of_N 34) (ascii_of_N 34)) with true.
  cbv iota. by apply string_tail_plain.
Qed.

Lemma parse_Members_unfold (fuel : nat) (c : ascii) (r : string) :
  json.parse (S fuel) json.Members (String c r) =
  if strings.is_byte c (ascii_of_N 34) then
    match json.string_tail r ≫= (λ r, Some (json.skip_ws r)) with
    | Some (String colon r) =>
        if strings.is_byte colon ":" then
          match json.parse fuel json.Value (json.skip_ws r)
                ≫= (λ r, Some (json.skip_ws r)) with
          | Some (String d r) =>
              if strings.is_byte d "," then json.parse fuel json.Members (json.skip_ws r)
              else if strings.is_byte d "}" then Some r
              else None
          | _ => None
          end
        else None
    | _ => None
    end
  else None.
Proof. reflexivity. Qed.

Lemma parse_object_unfold (fuel : nat) (r : string) :
  json.parse (S fuel) json.Value (String "{" r) =
  match json.skip_ws r with
  | String c' r' as m =>
      if strings.is_byte c' "}" then Some r' else json.parse fuel json.Members m
  | EmptyString => None
  end.
Proof. reflexivity. Qed.

Lemma parse_query_member (fuel : nat) (query : string) :
  strings.all_bytes json_plain query = true →
  json.parse (S (S fuel)) json.Members
    (dquote ++ "query" ++ dquote ++ ":" ++ dquote ++ query ++ dquote ++ "}")
  = Some "".
Proof.
  intros Hq.
  change (dquote ++ "query" ++ dquote ++ ":" ++ dquote ++ query ++ dquote ++ "}")
    with (String (ascii_of_N 34)
            ("query" ++ dquote ++ (":" ++ dquote ++ query ++ dquote ++ "}"))).
  rewrite parse_Members_unfold.
  change (strings.is_byte (ascii_of_N 34) (ascii_of_N 34)) with true.
  cbv iota. rewrite string_tail_plain by reflexivity.
  change (Some (":" ++ dquote ++ query ++ dquote ++ "}") ≫= λ r, Some (json.skip_ws r))
    with (Some (String ":" (dquote ++ query ++ dquote ++ "}"))).
  cbv iota.
  change (strings.is_byte ":" ":") with true. cbv iota.
  change (json.skip_ws (dquote ++ query ++ dquote ++ "}"))
    with (dquote ++ query ++ dquote ++ "}").
  rewrite parse_string_value by done.
  reflexivity.
Qed.

(** For a query of plain bytes the body is a JSON text. *)
Lemma query_form_valid (query : string) :
  strings.all_bytes json_plain query = true →
  json.valid (query_form query) = true.
Proof.
  intros Hq. unfold json.valid.
  set (n := 2 * String.length (query_form query) + 2).
  assert (∃ k, n = S (S (S k))) as [k ->].
  { exists (n - 3). unfold n, query_form. simpl. lia. }
  unfold query_form.
  change (json.skip_ws ("{" ++ dquote ++ "query" ++ dquote ++ ":" ++ dquote
                        ++ query ++ dquote ++ "}"))
    with (String "{" (dquote ++ "query" ++ dquote ++ ":" ++ dquote
                      ++ query ++ dquote ++ "}")).
  rewrite parse_object_unfold.
  change (json.skip_ws (dquote ++ "query" ++ dquote ++ ":" ++ dquote
                        ++ query ++ dquote ++ "}"))
    with (String (ascii_of_N 34) ("query" ++ dquote ++ ":" ++ dquote
                        ++ query ++ dquote ++ "}")).
  cbv iota.
  change (strings.is_byte (ascii_of_N 34) "}") with false. cbv iota.
  change (String (ascii_of_N 34) ("query" ++ dquote ++ ":" ++ dquote
                        ++ query ++ dquote ++ "}"))
    with (dquote ++ "query" ++ dquote ++ ":" ++ dquote ++ query ++ dquote ++ "}").
  rewrite parse_query_member by done. reflexivity.
Qed.

(** C4.  [getNodes] issues one POST request to [{base-url}/pdb/query/v4]
    with the content type [application/json], but its body is the query
    copied between two quotes without escaping: for the query
    [nodes { certname = "web1" }] the body is not a JSON text. *)
Theorem request_body_not_json_for_quoted_query `{Externals}
    (client : Client) (puppetdb : string) (w : World) (u : URL) :
  url_Parse (puppetdb ++ "/pdb/query/v4") = inr u →
  let query := "nodes { certname = " ++ dquote ++ "web1" ++ dquote ++ " }" in
  sent (getNodes client puppetdb query w).2
  = (sent w ++ [ {| Method := "POST";
                    RequestURL := puppetdb ++ "/pdb/query/v4";
                    Header := [("Content-Type", "application/json")];
                    Body := "{" ++ dquote ++ "query" ++ dquote ++ ":" ++ dquote
                            ++ "nodes { certname = " ++ dquote ++ "web1" ++ dquote
                            ++ " }" ++ dquote ++ "}" |} ])%list
  ∧ json.valid (Body (inventory_request puppetdb query)) = false.
Proof.
  intros Hu query. split.
  - by rewrite (getNodes_sends_one_POST _ _ _ _ u).
  - vm_compute. reflexivity.
Qed.

Lemma request_body_not_json_for_quoted_query_witness :
  let query := "nodes { certname = " ++ dquote ++ "web1" ++ dquote ++ " }" in
  sent (@getNodes sample_externals http_client "http://puppetdb:8080" query
          (sample_world [])).2
  = [ {| Method := "POST";
         RequestURL := "http://puppetdb:8080/pdb/query/v4";
         Header := [("Content-Type", "application/json")];
         Body := "{" ++ dquote ++ "query" ++ dquote ++ ":" ++ dquote
                 ++ "nodes { certname = " ++ dquote ++ "web1" ++ dquote
                 ++ " }" ++ dquote ++ "}" |} ]
  ∧ json.valid (Body (inventory_request "http://puppetdb:8080" query)) = false.
Proof.
  refine (@request_body_not_json_for_quoted_query sample_externals http_client
            "http://puppetdb:8080" (sample_world [])
            {| Scheme := "http"; Host := "puppetdb:8080"; Path := "/pdb/query/v4" |} _).
  vm_compute. reflexivity.
Defined.

(** The body of the configured default query is a JSON text. *)
Example default_query_body_valid :
  json.valid (query_form (Query (sample_config "http://puppetdb:8080" "stdout"))) = true.
Proof. apply query_form_valid. vm_compute. reflexivity. Qed.

(** ** Startup *)

(** C7. A base URL that parses with a scheme other than http and https
    stops the process in [init]: a fatal message is logged, the exit status
    is 1, [main] never runs, and nothing else in the world changes, so no
    request goes out.  With the scheme http the check passes and [init]
    yields the plain client; with https it passes and [init] goes on to
    load the certificates. *)
Theorem init_checks_scheme `{Externals}
    (range : nat → MapOrder) (cfg : Config) (cycles : nat) (w : World) (u : URL) :
  url_Parse (PuppetDBURL cfg) = inr u →
  (Scheme u ≠ "http" → Scheme u ≠ "https" →
   run range cfg cycles w
   = (inl (Exit 1),
      set_logged (logged w ++ [("fatal", Scheme u ++ " is not a valid http scheme" ++ LF)]) w)
   ∧ sent (run range cfg cycles w).2 = sent w
   ∧ network (run range cfg cycles w).2 = network w)
  ∧ (Scheme u = "http" → init cfg w = (inr http_client, w))
  ∧ (Scheme u = "https" → init cfg w = https_client cfg w).
Proof.
  intros Hu. unfold run, init, bind. rewrite Hu. repeat split.
  - rewrite !bool_decide_eq_true_2 by done. reflexivity.
  - rewrite !bool_decide_eq_true_2 by done. reflexivity.
  - rewrite !bool_decide_eq_true_2 by done. reflexivity.
  - intros Hs. rewrite Hs. reflexivity.
  - intros Hs. rewrite Hs. reflexivity.
Qed.

Lemma init_checks_scheme_witness :
  (@run sample_externals (λ _, canonical_order)
     (sample_config "ftp://puppetdb:8080" "stdout") 3
     (sample_world [inr {| StatusCode := 200; ReadAll := inr inventory1 |}])
   = (inl (Exit 1),
      set_logged [("fatal", "ftp is not a valid http scheme" ++ LF)]
        (sample_world [inr {| StatusCode := 200; ReadAll := inr inventory1 |}])))
  ∧ @init sample_externals (sample_config "http://puppetdb:8080" "stdout") (sample_world [])
    = (inr http_client, sample_world [])
  ∧ @init sample_externals (sample_config "HTTPS://puppetdb:8081" "stdout") (sample_world [])
    = @https_client sample_externals
        (sample_config "HTTPS://puppetdb:8081" "stdout") (sample_world []).
Proof.
  split; [|split].
  - refine (proj1 (proj1 (@init_checks_scheme sample_externals (λ _, canonical_order)
                     (sample_config "ftp://puppetdb:8080" "stdout") 3
                     (sample_world [inr {| StatusCode := 200; ReadAll := inr inventory1 |}])
                     {| Scheme := "ftp"; Host := "puppetdb:8080"; Path := "" |} _) _ _)).
    + vm_compute. reflexivity.
    + simpl. discriminate.
    + simpl. discriminate.
  - refine (proj1 (proj2 (@init_checks_scheme sample_externals (λ _, canonical_order)
                     (sample_config "http://puppetdb:8080" "stdout") 3 (sample_world [])
                     {| Scheme := "http"; Host := "puppetdb:8080"; Path := "" |} _)) _).
    + vm_compute. reflexivity.
    + reflexivity.
  - refine (proj2 (proj2 (@init_checks_scheme sample_externals (λ _, canonical_order)
                     (sample_config "HTTPS://puppetdb:8081" "stdout") 3 (sample_world [])
                     {| Scheme := "https"; Host := "puppetdb:8081"; Path := "" |} _)) _).
    + vm_compute. reflexivity.
    + reflexivity.
Defined.

(** A base URL that does not parse at all stops the process as well. *)
Lemma init_rejects_unparsable `{Externals}
    (range : nat → MapOrder) (cfg : Config) (cycles : nat) (w : World) (err : error) :
  url_Parse (PuppetDBURL cfg) = inl err →
  run range cfg cycles w
  = (inl (Exit 1),
     set_logged (logged w ++ [("fatal", "failed to parse PuppetDB URL: " ++ err)]) w).
Proof. intros Hu. unfold run, init, bind. by rewrite Hu. Qed.

(** ** The file sink *)

Section FileSink.
Context `{Externals}.

(** A poll in which every step succeeds. *)
Lemma getTargets_success range client cfg w u status body rest nodes configs c :
  url_Parse (PuppetDBURL cfg ++ "/pdb/query/v4") = inr u →
  network w = inr {| StatusCode := status; ReadAll := inr body |} :: rest →
  json_Unmarshal body = inr nodes →
  mapTargets url_Parse range nodes = inr configs →
  yaml_Marshal configs = inr c →
  getTargets range client cfg w
  = (inr (Some c, None),
     after_request (inventory_request (PuppetDBURL cfg) (Query cfg)) w).
Proof.
  intros Hu Hnet Hjson Hmap Hyaml.
  erewrite getTargets_of_nodes.
  2:{ rewrite getNodes_run, Hu, Hnet. simpl. rewrite Hjson. reflexivity. }
  by rewrite Hmap, Hyaml.
Qed.

(** One round of the file loop in which the poll succeeds and the
    directory of the destination exists: the destination is overwritten with
    the bytes of the serializer, the round sleeps and asks for another. *)
Lemma file_cycle_writes range client cfg k w u status body rest nodes configs c :
  filepath_Dir (File cfg) ∈ dirs w →
  File cfg ∉ dirs w →
  url_Parse (PuppetDBURL cfg ++ "/pdb/query/v4") = inr u →
  network w = inr {| StatusCode := status; ReadAll := inr body |} :: rest →
  json_Unmarshal body = inr nodes →
  mapTargets url_Parse (range k) nodes = inr configs →
  yaml_Marshal configs = inr c →
  ∃ w',
    file_cycle range client cfg k w = (inr None, w')
    ∧ files w' = <[File cfg := c]> (files w)
    ∧ dirs w' = dirs w
    ∧ network w' = rest.
Proof.
  intros Hdir Hnodir Hu Hnet Hjson Hmap Hyaml.
  unfold file_cycle, bind.
  erewrite getTargets_success; [|exact Hu|exact Hnet|exact Hjson|exact Hmap|exact Hyaml].
  unfold ioutil_WriteFile. simpl.
  rewrite bool_decide_eq_true_2 by done.
  simpl. eexists. split; [reflexivity|]. simpl. by rewrite Hnet.
Qed.

End FileSink.

(** C8. With the file sink, a first poll cycle in which the fetch, the
    mapping and the serializer succeed leaves the parent directory of the
    destination in place and the destination file holding exactly the bytes
    the serializer returned for the mapped configs.  The directory is asked
    for once, before the loop; the statement needs a path at which a directory
    can exist and a destination that is not itself a directory. *)
Theorem file_sink_writes_serializer_output `{Externals}
    (range : nat → MapOrder) (client : Client) (cfg : Config) (w : World)
    (u : URL) (status : Z) (body : string) (rest : list (error + Response))
    (nodes : list Node) (configs : list StaticConfig) (c : string) :
  Output cfg = "file" →
  files w !! filepath_Dir (File cfg) = None →
  File cfg ∉ dirs w →
  File cfg ≠ filepath_Dir (File cfg) →
  url_Parse (PuppetDBURL cfg ++ "/pdb/query/v4") = inr u →
  network w = inr {| StatusCode := status; ReadAll := inr body |} :: rest →
  json_Unmarshal body = inr nodes →
  mapTargets url_Parse (range 0) nodes = inr configs →
  yaml_Marshal configs = inr c →
  ∃ w',
    main range client cfg 1 w = (inr Polling, w')
    ∧ filepath_Dir (File cfg) ∈ dirs w'
    ∧ files w' !! File cfg = Some c
    ∧ sent w' = (sent w ++ [inventory_request (PuppetDBURL cfg) (Query cfg)])%list
    ∧ slept w' = (slept w ++ [Sleep cfg])%list.
Proof.
  intros Hout Hparent Hnodir Hne Hu Hnet Hjson Hmap Hyaml.
  unfold main, bind. rewrite Hout.
  change (bool_decide ("file" = "stdout")) with false.
  change (bool_decide ("file" = "file")) with true.
  cbv iota. unfold ret at 1.
  unfold file_branch, bind, os_MkdirAll. rewrite Hparent.
  cbn [file_loop]. unfold bind, file_cycle, bind.
  erewrite getTargets_success; [|exact Hu|simpl; exact Hnet|exact Hjson|exact Hmap|exact Hyaml].
  unfold ioutil_WriteFile. simpl.
  rewrite bool_decide_eq_true_2.
  2:{ split; [apply elem_of_union; left; by apply elem_of_singleton|].
      rewrite elem_of_union, elem_of_singleton. by intros [?|?]. }
  simpl. eexists. split; [reflexivity|]. simpl.
  split; [apply elem_of_union; left; by apply elem_of_singleton|].
  split; [by rewrite lookup_insert_eq|]. done.
Qed.

Lemma file_sink_writes_serializer_output_witness :
  ∃ w',
    @main sample_externals (λ _, canonical_order) http_client
      (sample_config "http://puppetdb:8080" "file") 1
      (sample_world [inr {| StatusCode := 200; ReadAll := inr inventory1 |}])
    = (inr Polling, w')
    ∧ "/etc/prometheus/targets/prometheus-puppetdb" ∈ dirs w'
    ∧ files w' !! "/etc/prometheus/targets/prometheus-puppetdb/targets.yml"
      = Some ("- targets:" ++ LF ++ "  - 1.2.3.4:9100" ++ LF
              ++ "  labels:" ++ LF
              ++ "    certname: node1" ++ LF
              ++ "    host: node1" ++ LF
              ++ "    job: job1" ++ LF
              ++ "    metrics_path: /metrics" ++ LF
              ++ "    scheme: http" ++ LF)
    ∧ sent w'
      = [inventory_request "http://puppetdb:8080"
           (Query (sample_config "http://puppetdb:8080" "file"))]
    ∧ slept w' = [5000000000%Z].
Proof.
  refine (@file_sink_writes_serializer_output sample_externals (λ _, canonical_order)
            http_client (sample_config "http://puppetdb:8080" "file")
            (sample_world [inr {| StatusCode := 200; ReadAll := inr inventory1 |}])
            {| Scheme := "http"; Host := "puppetdb:8080"; Path := "/pdb/query/v4" |}
            200 inventory1 [] [node1]
            [ {| Targets := ["1.2.3.4:9100"];
                 Labels := {[ "certname" := "node1"; "host" := "node1";
                              "metrics_path" := "/metrics"; "job" := "job1";
                              "scheme" := "http" ]} |} ]
            _ _ _ _ _ _ _ _ _ _).
  - reflexivity.
  - apply lookup_empty.
  - apply not_elem_of_empty.
  - intros Heq. vm_compute in Heq. discriminate Heq.
  - vm_compute. reflexivity.
  - reflexivity.
  - vm_compute. reflexivity.
  - vm_compute. reflexivity.
  - vm_compute. reflexivity.
Defined.

(** ** Sink selection *)

Section SetupFacts.
Import outputs.
Variables OutputFile OutputK8SConfigMap OutputK8SExternalService : Type.
Variable setupOutputFile : string → error + OutputFile.
Variable setupOutputK8SConfigMap : string → string → error + OutputK8SConfigMap.
Variable setupOutputK8SExternalService :
  string → gmap string string → error + OutputK8SExternalService.

(** [Setup] returns an error for the empty name and for every name that
    is none of the four sinks. *)
Lemma Setup_rejects_unknown (options : Options) :
  ¬ known (Name options) →
  Setup setupOutputFile setupOutputK8SConfigMap setupOutputK8SExternalService options
  = inl (if bool_decide (Name options = "") then "no output defined"
         else "unknown output: `" ++ Name options ++ "'").
Proof.
  intros Hunknown. unfold Setup, known in *.
  repeat (rewrite bool_decide_eq_false_2;
          [|intros Heq; apply Hunknown; rewrite Heq; set_solver]).
  by case_bool_decide.
Qed.

(** For each of the four names [Setup] hands over to the constructor of
    that sink, and to no other; the standard output sink cannot fail. *)
Lemma Setup_selects_one (options : Options) :
  (Name options = "stdout" →
   Setup setupOutputFile setupOutputK8SConfigMap setupOutputK8SExternalService options
   = inr OutputStdout)
  ∧ (Name options = "file" →
     Setup setupOutputFile setupOutputK8SConfigMap setupOutputK8SExternalService options
     = wrap OfFile (setupOutputFile (FilePath options)))
  ∧ (Name options = "configmap" →
     Setup setupOutputFile setupOutputK8SConfigMap setupOutputK8SExternalService options
     = wrap OfK8SConfigMap
         (setupOutputK8SConfigMap (Namespace options) (ConfigMapName options)))
  ∧ (Name options = "external-services" →
     Setup setupOutputFile setupOutputK8SConfigMap setupOutputK8SExternalService options
     = wrap OfK8SExternalService
         (setupOutputK8SExternalService (Namespace options) (ObjectLabels options))).
Proof. unfold Setup. repeat split; intros ->; reflexivity. Qed.

End SetupFacts.

(** C6. [outputs.Setup] refuses an unknown or empty sink name with an error,
    but the selection written out in [main] does not: with a sink name that
    is none of stdout, file and configmap, none of the three [if] statements
    fires, and [main] returns at once, with no error, no poll cycle, and the
    world as it was. *)
Theorem main_ignores_unknown_output `{Externals}
    (range : nat → MapOrder) (client : Client) (cfg : Config) (cycles : nat)
    (w : World) :
  Output cfg ∉ ["stdout"; "file"; "configmap"] →
  main range client cfg cycles w = (inr Returned, w).
Proof.
  intros Hunknown. unfold main, bind.
  repeat (rewrite bool_decide_eq_false_2;
          [|intros Heq; apply Hunknown; rewrite Heq; set_solver]).
  reflexivity.
Qed.

Lemma main_ignores_unknown_output_witness :
  @main sample_externals (λ _, canonical_order) http_client
    (sample_config "http://puppetdb:8080" "bogus") 3
    (sample_world [inr {| StatusCode := 200; ReadAll := inr inventory1 |}])
  = (inr Returned, sample_world [inr {| StatusCode := 200; ReadAll := inr inventory1 |}]).
Proof.
  apply (@main_ignores_unknown_output sample_externals).
  simpl. intros Hin. repeat (apply elem_of_cons in Hin as [Hin|Hin]; [discriminate Hin|]).
  by apply elem_of_nil in Hin.
Defined.

(** On the same name [Setup] returns an error. *)
Example Setup_bogus :
  outputs.Setup (λ _, inr ()) (λ _ _, inr ()) (λ _ _, inr ())
    {| outputs.Name := "bogus"; outputs.FilePath := ""; outputs.ConfigMapName := "";
       outputs.Namespace := ""; outputs.ObjectLabels := ∅ |}
  = inl "unknown output: `bogus'".
Proof. reflexivity. Qed.

(** With each of its three sink names [main] runs the branch of that sink
    and no other. *)
Lemma main_selects_one `{Externals}
    (range : nat → MapOrder) (client : Client) (cfg : Config) (cycles : nat)
    (w : World) :
  (Output cfg = "stdout" →
   main range client cfg cycles w
   = (let* _ := stdout_branch range client cfg in ret Returned) w)
  ∧ (Output cfg = "file" →
     main range client cfg cycles w
     = (let* e := file_branch range client cfg cycles in
        ret (match e with OutOfCycles => Polling | _ => Returned end)) w)
  ∧ (Output cfg = "configmap" →
     main range client cfg cycles w
     = (let* e := configmap_branch range client cfg cycles in
        ret (match e with OutOfCycles => Polling | _ => Returned end)) w).
Proof.
  unfold main, bind. repeat split; intros ->; simpl.
  - by destruct (stdout_branch range client cfg w) as [[h|[]] w'].
  - unfold ret. by destruct (file_branch range client cfg cycles w) as [[h|[]] w'].
  - unfold ret. by destruct (configmap_branch range client cfg cycles w) as [[h|[]] w'].
Qed.

(** * Further properties *)

(** ** Further properties of the target mapper *)

Lemma visitConfigs_Permutation (Parse : string → error + URL) (node : Node)
    (visit1 visit2 : list (string * string)) :
  visit1 ≡ₚ visit2 → visitConfigs Parse node visit1 ≡ₚ visitConfigs Parse node visit2.
Proof. intros Hp. unfold visitConfigs. by rewrite Hp. Qed.

Lemma nodesConfigs_Permutation (Parse : string → error + URL)
    (range1 range2 : MapOrder) (i j : nat) (nodes : list Node) :
  valid_order range1 → valid_order range2 →
  nodesConfigs Parse range1 i nodes ≡ₚ nodesConfigs Parse range2 j nodes.
Proof.
  intros H1 H2. revert i j. induction nodes as [|node nodes IH]; intros i j; [done|].
  simpl. apply Permutation_app; [|apply IH].
  apply visitConfigs_Permutation. by rewrite (H1 i), (H2 j).
Qed.

(** X1. The order in which Go visits the exporter maps changes neither
    whether the mapping succeeds nor which configs it yields: along two
    valid orders the mapper fails both times or returns two lists that are
    permutations of each other. *)
Theorem mapper_order_irrelevant
    (Parse : string → error + URL) (range1 range2 : MapOrder) (nodes : list Node) :
  valid_order range1 → valid_order range2 →
  match mapTargets Parse range1 nodes, mapTargets Parse range2 nodes with
  | inr out1, inr out2 => out1 ≡ₚ out2
  | inl _, inl _ => True
  | _, _ => False
  end.
Proof.
  intros H1 H2. unfold mapTargets.
  destruct (rangeNodes Parse range1 0 nodes []) as [e1|out1] eqn:R1.
  - destruct (rangeNodes Parse range2 0 nodes []) as [e2|out2] eqn:R2; [done|].
    apply (rangeNodes_inr _ _ H2) in R2.
    rewrite (rangeNodes_parses _ _ H1) in R1 by done. discriminate R1.
  - pose proof (rangeNodes_inr _ _ H1 _ _ _ _ R1) as Hall.
    rewrite (rangeNodes_parses _ _ H1) in R1 by done.
    rewrite (rangeNodes_parses _ _ H2) by done.
    simplify_eq. simpl. by apply nodesConfigs_Permutation.
Qed.

(** An order that visits every map backwards. *)
Lemma reverse_order_valid : valid_order (λ _ m, reverse (map_to_list m)).
Proof. intros i m. apply reverse_Permutation. Qed.

Lemma mapper_order_irrelevant_witness :
  match mapTargets url.Parse canonical_order [node1; node2],
        mapTargets url.Parse (λ _ m, reverse (map_to_list m)) [node1; node2] with
  | inr out1, inr out2 => out1 ≡ₚ out2
  | inl _, inl _ => True
  | _, _ => False
  end.
Proof.
  apply (mapper_order_irrelevant url.Parse canonical_order
           (λ _ m, reverse (map_to_list m)) [node1; node2]).
  - intros i m. reflexivity.
  - exact reverse_order_valid.
Defined.

(** X2. Every config the mapper emits carries exactly the five labels
    certname, host, metrics_path, job and scheme; certname and host both
    hold the certname of the node, job holds the key of the exporter entry,
    and metrics_path and scheme hold the path and the scheme of its parsed
    URL. *)
Theorem mapper_labels
    (Parse : string → error + URL) (range : MapOrder) (nodes : list Node)
    (out : list StaticConfig) :
  valid_order range →
  mapTargets Parse range nodes = inr out →
  Forall (λ c,
    dom (Labels c) = label_keys
    ∧ ∃ node jobName target u,
        node ∈ nodes ∧ Exporters node !! jobName = Some target
        ∧ Parse target = inr u
        ∧ Labels c !! "certname" = Some (Certname node)
        ∧ Labels c !! "host" = Some (Certname node)
        ∧ Labels c !! "job" = Some jobName
        ∧ Labels c !! "metrics_path" = Some (Path u)
        ∧ Labels c !! "scheme" = Some (Scheme u)) out.
Proof.
  intros Hrange Hrun. unfold mapTargets in Hrun.
  pose proof (rangeNodes_inr _ _ Hrange _ _ _ _ Hrun) as Hall.
  rewrite rangeNodes_parses in Hrun by done. simplify_eq. simpl.
  apply Forall_forall. intros c Hc.
  apply elem_of_nodesConfigs in Hc as (n & j & t & u & Hn & Hl & Hu & ->); [|done].
  split.
  - unfold staticConfig, label_keys. simpl.
    rewrite !dom_insert_L, dom_singleton_L. set_solver.
  - exists n, j, t, u. unfold staticConfig. simpl.
    repeat split; try done; by simplify_map_eq.
Qed.

Lemma mapper_labels_witness :
  Forall (λ c,
    dom (Labels c) = label_keys
    ∧ ∃ node jobName target u,
        node ∈ [node1; node2] ∧ Exporters node !! jobName = Some target
        ∧ url.Parse target = inr u
        ∧ Labels c !! "certname" = Some (Certname node)
        ∧ Labels c !! "host" = Some (Certname node)
        ∧ Labels c !! "job" = Some jobName
        ∧ Labels c !! "metrics_path" = Some (Path u)
        ∧ Labels c !! "scheme" = Some (Scheme u))
    (nodesConfigs url.Parse canonical_order 0 [node1; node2]).
Proof.
  apply (mapper_labels url.Parse canonical_order [node1; node2]).
  - intros i m. reflexivity.
  - vm_compute. reflexivity.
Defined.

(** The outer loop on two node lists, one after the other: it first maps
    the first list and, if that succeeds, goes on with the second from the
    configs gathered so far; an error in the first list is returned before
    the second is looked at. *)
Lemma rangeNodes_app
    (Parse : string → error + URL) (range : MapOrder) (i : nat)
    (nodes1 nodes2 : list Node) (acc : list StaticConfig) :
  rangeNodes Parse range i (nodes1 ++ nodes2) acc
  = match rangeNodes Parse range i nodes1 acc with
    | inl err => inl err
    | inr acc' => rangeNodes Parse range (i + length nodes1) nodes2 acc'
    end.
Proof.
  revert i acc. induction nodes1 as [|node nodes1 IH]; intros i acc.
  - simpl. by rewrite Nat.add_0_r.
  - cbn [app rangeNodes length].
    destruct (rangeExporters Parse node (range i (Exporters node)) acc) as [e|acc']; [done|].
    rewrite IH. by replace (S i + length nodes1) with (i + S (length nodes1)) by lia.
Qed.

Lemma nodesConfigs_concat (Parse : string → error + URL) (range : MapOrder)
    (i : nat) (nodes : list Node) :
  nodesConfigs Parse range i nodes
  = concat (imap (λ k node, omap (entryConfig Parse node) (range (i + k) (Exporters node)))
              nodes).
Proof.
  revert i. induction nodes as [|node nodes IH]; intros i; [done|].
  simpl. rewrite Nat.add_0_r. unfold visitConfigs at 1. f_equal.
  rewrite IH. f_equal. apply imap_ext. intros k n _. unfold compose.
  by rewrite Nat.add_succ_r.
Qed.

(** X3. The output of the mapper follows its input: it lists the configs
    node by node in the order of the node list, and within a node in the
    order in which its exporter entries were visited, one config for every
    entry; the configs of an earlier node come before those of a later
    one. *)
Theorem mapper_output_in_node_order
    (Parse : string → error + URL) (range : MapOrder) (nodes : list Node)
    (out : list StaticConfig) :
  valid_order range →
  mapTargets Parse range nodes = inr out →
  out = concat (imap (λ i node,
                        omap (entryConfig Parse node) (range i (Exporters node)))
                  nodes)
  ∧ ∀ i node,
      nodes !! i = Some node →
      length (omap (entryConfig Parse node) (range i (Exporters node)))
      = size (Exporters node).
Proof.
  intros Hrange Hrun. unfold mapTargets in Hrun.
  pose proof (rangeNodes_inr _ _ Hrange _ _ _ _ Hrun) as Hall.
  rewrite rangeNodes_parses in Hrun by done. simplify_eq. simpl.
  split; [by rewrite nodesConfigs_concat|].
  intros i node Hi.
  change (length (visitConfigs Parse node (range i (Exporters node)))
          = size (Exporters node)).
  rewrite length_visitConfigs, length_range; [done|done|].
  eapply all_parse_visit; [done|done|]. by eapply list_elem_of_lookup_2.
Qed.

Lemma mapper_output_in_node_order_witness :
  nodesConfigs url.Parse canonical_order 0 [node2; node1]
  = concat (imap (λ i node,
                    omap (entryConfig url.Parse node) (canonical_order i (Exporters node)))
              [node2; node1])
  ∧ ∀ i node,
      [node2; node1] !! i = Some node →
      length (omap (entryConfig url.Parse node) (canonical_order i (Exporters node)))
      = size (Exporters node).
Proof.
  apply (mapper_output_in_node_order url.Parse canonical_order [node2; node1]).
  - intros i m. reflexivity.
  - vm_compute. reflexivity.
Defined.

(** Two nodes with one exporter each: the configs come out in the order
    of the nodes. *)
Example mapper_output_order_example :
  mapTargets url.Parse canonical_order [node_noscheme; node1]
  = inr [ {| Targets := [""];
             Labels := {[ "certname" := "node4"; "host" := "node4";
                          "metrics_path" := ""; "job" := "job1";
                          "scheme" := "localhost" ]} |};
          {| Targets := ["1.2.3.4:9100"];
             Labels := {[ "certname" := "node1"; "host" := "node1";
                          "metrics_path" := "/metrics"; "job" := "job1";
                          "scheme" := "http" ]} |} ].
Proof. vm_compute. reflexivity. Qed.

(** ** Further properties of the inventory client and of [getTargets] *)

(** X4. One call of [getNodes] issues no request when [http.NewRequest]
    refuses the URL, and then returns that error with the world untouched;
    otherwise it issues exactly one request, the POST of the query, and takes
    exactly one answer from the network.  In both cases it leaves the file
    system, the standard output, the sleep record and the cluster alone. *)
Theorem getNodes_one_request_at_most `{Externals}
    (client : Client) (puppetdb query : string) (w : World) :
  only_polled w (getNodes client puppetdb query w).2
  ∧ match url_Parse (puppetdb ++ "/pdb/query/v4") with
    | inl err => getNodes client puppetdb query w = (inr (inl err), w)
    | inr _ =>
        sent (getNodes client puppetdb query w).2
        = (sent w ++ [inventory_request puppetdb query])%list
        ∧ network (getNodes client puppetdb query w).2 = tail (network w)
    end.
Proof.
  rewrite getNodes_run.
  destruct (url_Parse (puppetdb ++ "/pdb/query/v4")) as [err|u]; simpl.
  - by repeat split.
  - by repeat split.
Qed.

Section GetTargetsFacts.
Context `{Externals}.

Lemma getNodes_only_polled client puppetdb query w :
  only_polled w (getNodes client puppetdb query w).2.
Proof.
  rewrite getNodes_run.
  destruct (url_Parse (puppetdb ++ "/pdb/query/v4")); by repeat split.
Qed.

Lemma getNodes_never_halts client puppetdb query w :
  ∃ r, (getNodes client puppetdb query w).1 = inr r.
Proof.
  rewrite getNodes_run.
  destruct (url_Parse (puppetdb ++ "/pdb/query/v4")); by eexists.
Qed.

Lemma getNodes_logs_nothing client puppetdb query w :
  logged (getNodes client puppetdb query w).2 = logged w.
Proof.
  rewrite getNodes_run.
  by destruct (url_Parse (puppetdb ++ "/pdb/query/v4")).
Qed.

Lemma getNodes_sent client puppetdb query w :
  sent (getNodes client puppetdb query w).2 = sent w
  ∨ sent (getNodes client puppetdb query w).2
    = (sent w ++ [inventory_request puppetdb query])%list.
Proof.
  rewrite getNodes_run.
  destruct (url_Parse (puppetdb ++ "/pdb/query/v4")); [by left|by right].
Qed.

(** [getTargets] in one equation, from the outcome of [getNodes]. *)
Lemma getTargets_run range client cfg w :
  getTargets range client cfg w =
  match getNodes client (PuppetDBURL cfg) (Query cfg) w with
  | (inl h, w') => (inl h, w')
  | (inr (inl err), w') =>
      (inr (None, Some err),
       set_logged (logged w' ++ [("error", "failed to get nodes: " ++ err)]) w')
  | (inr (inr nodes), w') =>
      (inr match mapTargets url_Parse range nodes with
           | inl err => (None, Some err)
           | inr fileSdConfig =>
               match yaml_Marshal fileSdConfig with
               | inl err => (None, Some err)
               | inr c => (Some c, None)
               end
           end, w')
  end.
Proof.
  unfold getTargets, bind.
  destruct (getNodes client (PuppetDBURL cfg) (Query cfg) w) as [[h|[err|nodes]] w'];
    [done|done|].
  destruct (mapTargets url_Parse range nodes) as [e|configs]; [done|].
  by destruct (yaml_Marshal configs).
Qed.

End GetTargetsFacts.

(** X5. Whatever the world, [getTargets] returns to its caller (it never
    ends the process), and it returns either bytes and no error or an error
    and nil bytes; it issues at most one request and leaves the file system,
    the standard output, the sleep record and the cluster alone. *)
Theorem getTargets_bytes_or_error `{Externals}
    (range : MapOrder) (client : Client) (cfg : Config) (w : World) :
  ∃ r w',
    getTargets range client cfg w = (inr r, w')
    ∧ ((∃ c, r = (Some c, None)) ∨ (∃ err, r = (None, Some err)))
    ∧ only_polled w w'
    ∧ (sent w' = sent w
       ∨ sent w' = (sent w ++ [inventory_request (PuppetDBURL cfg) (Query cfg)])%list).
Proof.
  rewrite getTargets_run.
  pose proof (getNodes_only_polled client (PuppetDBURL cfg) (Query cfg) w) as Hkeep.
  pose proof (getNodes_sent client (PuppetDBURL cfg) (Query cfg) w) as Hs.
  destruct (getNodes_never_halts client (PuppetDBURL cfg) (Query cfg) w) as [r Hr].
  destruct (getNodes client (PuppetDBURL cfg) (Query cfg) w) as [res w'].
  simpl in *. subst res.
  destruct r as [err|nodes].
  - eexists _, _. split; [reflexivity|]. split; [right; by eexists|]. by split.
  - eexists _, _. split; [reflexivity|]. split; [|by split].
    destruct (mapTargets url_Parse range nodes) as [e|configs]; [right; by eexists|].
    destruct (yaml_Marshal configs); [right|left]; by eexists.
Qed.

(** X6. The bytes [getTargets] returns are never anything but the
    serializer's output for the configs mapped from the nodes that the
    inventory returned in this very call. *)
Theorem getTargets_bytes_are_serialized_mapping `{Externals}
    (range : MapOrder) (client : Client) (cfg : Config) (w w' : World)
    (c : string) (err : option error) :
  getTargets range client cfg w = (inr (Some c, err), w') →
  err = None
  ∧ ∃ nodes configs,
      getNodes client (PuppetDBURL cfg) (Query cfg) w = (inr (inr nodes), w')
      ∧ mapTargets url_Parse range nodes = inr configs
      ∧ yaml_Marshal configs = inr c.
Proof.
  rewrite getTargets_run.
  destruct (getNodes client (PuppetDBURL cfg) (Query cfg) w) as [[h|[e|nodes]] w1];
    [done|done|].
  destruct (mapTargets url_Parse range nodes) as [e|configs] eqn:Hmap; [done|].
  destruct (yaml_Marshal configs) as [e|c'] eqn:Hyaml; [done|].
  intros [= <- <- <-]. split; [done|]. by exists nodes, configs.
Qed.

Lemma getTargets_bytes_are_serialized_mapping_witness :
  (None : option error) = None
  ∧ ∃ nodes configs,
      @getNodes sample_externals http_client "http://puppetdb:8080"
        (Query (sample_config "http://puppetdb:8080" "stdout"))
        (sample_world [inr {| StatusCode := 200; ReadAll := inr inventory1 |}])
      = (inr (inr nodes),
         after_request
           (inventory_request "http://puppetdb:8080"
              (Query (sample_config "http://puppetdb:8080" "stdout")))
           (sample_world [inr {| StatusCode := 200; ReadAll := inr inventory1 |}]))
      ∧ mapTargets url.Parse canonical_order nodes = inr configs
      ∧ yaml.Marshal (λ _ s, s) sample_sorted configs
        = inr ("- targets:" ++ LF ++ "  - 1.2.3.4:9100" ++ LF
               ++ "  labels:" ++ LF
               ++ "    certname: node1" ++ LF
               ++ "    host: node1" ++ LF
               ++ "    job: job1" ++ LF
               ++ "    metrics_path: /metrics" ++ LF
               ++ "    scheme: http" ++ LF).
Proof.
  apply (@getTargets_bytes_are_serialized_mapping sample_externals canonical_order
           http_client (sample_config "http://puppetdb:8080" "stdout")
           (sample_world [inr {| StatusCode := 200; ReadAll := inr inventory1 |}])).
  vm_compute. reflexivity.
Defined.

(** ** Further properties of the sinks of [main] *)

Section SinkFacts.
Context `{Externals}.

Lemma init_http cfg w base :
  url_Parse (PuppetDBURL cfg) = inr base → Scheme base = "http" →
  init cfg w = (inr http_client, w).
Proof. intros Hbase Hs. unfold init. rewrite Hbase, Hs. reflexivity. Qed.

(** What [main] does with each of its three sink names. *)
Lemma main_stdout range client cfg cycles w :
  Output cfg = "stdout" →
  main range client cfg cycles w
  = match stdout_branch range client cfg w with
    | (inl h, w') => (inl h, w')
    | (inr _, w') => (inr Returned, w')
    end.
Proof.
  intros Hout. unfold main, bind. rewrite Hout.
  change (bool_decide ("stdout" = "stdout")) with true.
  change (bool_decide ("stdout" = "file")) with false.
  change (bool_decide ("stdout" = "configmap")) with false.
  cbv iota. by destruct (stdout_branch range client cfg w) as [[h|[]] w'].
Qed.

Lemma main_file range client cfg cycles w :
  Output cfg = "file" →
  main range client cfg cycles w
  = match file_branch range client cfg cycles w with
    | (inl h, w') => (inl h, w')
    | (inr OutOfCycles, w') => (inr Polling, w')
    | (inr _, w') => (inr Returned, w')
    end.
Proof.
  intros Hout. unfold main, bind. rewrite Hout.
  change (bool_decide ("file" = "stdout")) with false.
  change (bool_decide ("file" = "file")) with true.
  change (bool_decide ("file" = "configmap")) with false.
  cbv iota. unfold ret at 1.
  by destruct (file_branch range client cfg cycles w) as [[h|[]] w'].
Qed.

Lemma main_configmap range client cfg cycles w :
  Output cfg = "configmap" →
  main range client cfg cycles w
  = match configmap_branch range client cfg cycles w with
    | (inl h, w') => (inl h, w')
    | (inr OutOfCycles, w') => (inr Polling, w')
    | (inr _, w') => (inr Returned, w')
    end.
Proof.
  intros Hout. unfold main, bind. rewrite Hout.
  change (bool_decide ("configmap" = "stdout")) with false.
  change (bool_decide ("configmap" = "file")) with false.
  change (bool_decide ("configmap" = "configmap")) with true.
  cbv iota. unfold ret at 1. unfold ret at 1.
  by destruct (configmap_branch range client cfg cycles w) as [[h|[]] w'].
Qed.

(** A poll that meets a transport error. *)
Lemma getTargets_transport_error range client cfg w u err rest :
  url_Parse (PuppetDBURL cfg ++ "/pdb/query/v4") = inr u →
  network w = inl err :: rest →
  getTargets range client cfg w
  = (inr (None, Some err),
     set_logged (logged w ++ [("error", "failed to get nodes: " ++ err)])
       (after_request (inventory_request (PuppetDBURL cfg) (Query cfg)) w)).
Proof.
  intros Hu Hnet. rewrite getTargets_run, getNodes_run, Hu, Hnet. reflexivity.
Qed.

End SinkFacts.

(** X7. With the stdout sink and an http inventory, a process whose one
    poll succeeds prints the rendering once (handed to [fmt.Printf] as its
    format) and returns: it issues one request, never sleeps, logs nothing
    and writes no file, however many rounds it would be allowed. *)
Theorem run_stdout_prints_once `{Externals}
    (range : nat → MapOrder) (cfg : Config) (cycles : nat) (w : World)
    (base u : URL) (status : Z) (body : string) (rest : list (error + Response))
    (nodes : list Node) (configs : list StaticConfig) (c : string) :
  Output cfg = "stdout" →
  url_Parse (PuppetDBURL cfg) = inr base →
  Scheme base = "http" →
  url_Parse (PuppetDBURL cfg ++ "/pdb/query/v4") = inr u →
  network w = inr {| StatusCode := status; ReadAll := inr body |} :: rest →
  json_Unmarshal body = inr nodes →
  mapTargets url_Parse (range 0) nodes = inr configs →
  yaml_Marshal configs = inr c →
  run range cfg cycles w
  = (inr Returned,
     set_stdout (stdout w ++ fmt_Sprintf c)
       (after_request (inventory_request (PuppetDBURL cfg) (Query cfg)) w)).
Proof.
  intros Hout Hbase Hscheme Hu Hnet Hjson Hmap Hyaml.
  unfold run, bind. rewrite (init_http _ _ base) by done.
  rewrite main_stdout by done. unfold stdout_branch, bind.
  erewrite getTargets_success; [|exact Hu|exact Hnet|exact Hjson|exact Hmap|exact Hyaml].
  reflexivity.
Qed.

Lemma run_stdout_prints_once_witness :
  @run sample_externals (λ _, canonical_order)
    (sample_config "http://puppetdb:8080" "stdout") 5
    (sample_world [inr {| StatusCode := 200; ReadAll := inr inventory1 |}])
  = (inr Returned,
     set_stdout ("- targets:" ++ LF ++ "  - 1.2.3.4:9100" ++ LF
                 ++ "  labels:" ++ LF
                 ++ "    certname: node1" ++ LF
                 ++ "    host: node1" ++ LF
                 ++ "    job: job1" ++ LF
                 ++ "    metrics_path: /metrics" ++ LF
                 ++ "    scheme: http" ++ LF)
       (after_request
          (inventory_request "http://puppetdb:8080"
             (Query (sample_config "http://puppetdb:8080" "stdout")))
          (sample_world [inr {| StatusCode := 200; ReadAll := inr inventory1 |}]))).
Proof.
  refine (@run_stdout_prints_once sample_externals (λ _, canonical_order)
            (sample_config "http://puppetdb:8080" "stdout") 5
            (sample_world [inr {| StatusCode := 200; ReadAll := inr inventory1 |}])
            {| Scheme := "http"; Host := "puppetdb:8080"; Path := "" |}
            {| Scheme := "http"; Host := "puppetdb:8080"; Path := "/pdb/query/v4" |}
            200 inventory1 [] [node1]
            [ {| Targets := ["1.2.3.4:9100"];
                 Labels := {[ "certname" := "node1"; "host" := "node1";
                              "metrics_path" := "/metrics"; "job" := "job1";
                              "scheme" := "http" ]} |} ]
            _ _ _ _ _ _ _ _ _).
  - reflexivity.
  - vm_compute. reflexivity.
  - reflexivity.
  - vm_compute. reflexivity.
  - reflexivity.
  - vm_compute. reflexivity.
  - vm_compute. reflexivity.
  - vm_compute. reflexivity.
Defined.

(** X8. With the stdout sink, an exporter URL that does not parse ends the
    process: the error is logged as fatal, the exit status is 1, and nothing
    is printed. *)
Theorem stdout_mapping_failure_exits `{Externals}
    (range : nat → MapOrder) (client : Client) (cfg : Config) (cycles : nat)
    (w w' : World) (nodes : list Node) (node : Node) (jobName target : string) :
  Output cfg = "stdout" →
  valid_order (range 0) →
  getNodes client (PuppetDBURL cfg) (Query cfg) w = (inr (inr nodes), w') →
  node ∈ nodes →
  Exporters node !! jobName = Some target →
  ¬ parses url_Parse target →
  ∃ err,
    main range client cfg cycles w
    = (inl (Exit 1),
       set_logged (logged w' ++ [("fatal", "failed to get exporters: " ++ err)]) w')
    ∧ stdout w' = stdout w.
Proof.
  intros Hout Hrange Hget Hin Hl Hbad.
  destruct (rangeNodes_fails url_Parse (range 0) Hrange 0 nodes [] node jobName target)
    as [err Herr]; try done.
  exists err. rewrite main_stdout by done. unfold stdout_branch, bind.
  rewrite (getTargets_of_nodes _ _ _ _ _ _ Hget). unfold mapTargets. rewrite Herr.
  split; [reflexivity|].
  pose proof (getNodes_only_polled client (PuppetDBURL cfg) (Query cfg) w) as Hk.
  rewrite Hget in Hk. by destruct Hk as (_ & _ & ? & _).
Qed.

Lemma stdout_mapping_failure_exits_witness :
  ∃ err,
    @main sample_externals (λ _, canonical_order) http_client
      (sample_config "http://puppetdb:8080" "stdout") 2
      (sample_world [inr {| StatusCode := 200; ReadAll := inr inventory_bad |}])
    = (inl (Exit 1),
       set_logged
         (logged (after_request
                    (inventory_request "http://puppetdb:8080"
                       (Query (sample_config "http://puppetdb:8080" "stdout")))
                    (sample_world
                       [inr {| StatusCode := 200; ReadAll := inr inventory_bad |}]))
          ++ [("fatal", "failed to get exporters: " ++ err)])
         (after_request
            (inventory_request "http://puppetdb:8080"
               (Query (sample_config "http://puppetdb:8080" "stdout")))
            (sample_world [inr {| StatusCode := 200; ReadAll := inr inventory_bad |}])))
    ∧ stdout (after_request
                (inventory_request "http://puppetdb:8080"
                   (Query (sample_config "http://puppetdb:8080" "stdout")))
                (sample_world [inr {| StatusCode := 200; ReadAll := inr inventory_bad |}]))
      = stdout (sample_world [inr {| StatusCode := 200; ReadAll := inr inventory_bad |}]).
Proof.
  apply (@stdout_mapping_failure_exits sample_externals (λ _, canonical_order) http_client
           (sample_config "http://puppetdb:8080" "stdout") 2
           (sample_world [inr {| StatusCode := 200; ReadAll := inr inventory_bad |}])
           _ [node1; node_bad] node_bad "job1" "::bad-url").
  - reflexivity.
  - intros i m. reflexivity.
  - vm_compute. reflexivity.
  - vm_compute. right. left.
  - vm_compute. reflexivity.
  - intros [u Hu]. vm_compute in Hu. discriminate Hu.
Defined.

(** X9. With the file sink, a transport error in the first poll ends the
    loop for good: the error is logged twice (by [getTargets] and by [main]),
    [main] returns, no file is written, nothing sleeps, and only the one
    request went out, however many rounds were still allowed. *)
Theorem file_poll_failure_is_not_retried `{Externals}
    (range : nat → MapOrder) (client : Client) (cfg : Config) (cycles : nat)
    (w : World) (u : URL) (err : error) (rest : list (error + Response)) :
  Output cfg = "file" →
  url_Parse (PuppetDBURL cfg ++ "/pdb/query/v4") = inr u →
  network w = inl err :: rest →
  ∃ w',
    main range client cfg (S cycles) w = (inr Returned, w')
    ∧ files w' = files w
    ∧ slept w' = slept w
    ∧ network w' = rest
    ∧ sent w' = (sent w ++ [inventory_request (PuppetDBURL cfg) (Query cfg)])%list
    ∧ logged w' = (logged w ++ [("error", ("failed to get nodes: " ++ err)%string);
                                ("error", ("failed to get exporters: " ++ err)%string)])%list.
Proof.
  intros Hout Hu Hnet. rewrite main_file by done.
  unfold file_branch, bind, os_MkdirAll.
  destruct (files w !! filepath_Dir (File cfg)) as [x|] eqn:Hdir.
  - cbn [file_loop]. unfold bind, file_cycle, bind.
    erewrite getTargets_transport_error; [|exact Hu|exact Hnet].
    simpl. eexists. split; [reflexivity|]. simpl. rewrite Hnet, <- app_assoc. done.
  - cbn [file_loop]. unfold bind, file_cycle, bind.
    erewrite getTargets_transport_error; [|exact Hu|simpl; exact Hnet].
    simpl. eexists. split; [reflexivity|]. simpl. rewrite Hnet, <- app_assoc. done.
Qed.

Lemma file_poll_failure_is_not_retried_witness :
  ∃ w',
    @main sample_externals (λ _, canonical_order) http_client
      (sample_config "http://puppetdb:8080" "file") 4
      (sample_world [inl "timeout"; inr {| StatusCode := 200; ReadAll := inr inventory1 |}])
    = (inr Returned, w')
    ∧ files w' = ∅
    ∧ slept w' = []
    ∧ network w' = [inr {| StatusCode := 200; ReadAll := inr inventory1 |}]
    ∧ sent w' = [inventory_request "http://puppetdb:8080"
                   (Query (sample_config "http://puppetdb:8080" "file"))]
    ∧ logged w' = [("error", "failed to get nodes: timeout");
                   ("error", "failed to get exporters: timeout")].
Proof.
  refine (@file_poll_failure_is_not_retried sample_externals (λ _, canonical_order)
            http_client (sample_config "http://puppetdb:8080" "file") 3
            (sample_world
               [inl "timeout"; inr {| StatusCode := 200; ReadAll := inr inventory1 |}])
            {| Scheme := "http"; Host := "puppetdb:8080"; Path := "/pdb/query/v4" |}
            "timeout" [inr {| StatusCode := 200; ReadAll := inr inventory1 |}] _ _ _).
  - reflexivity.
  - vm_compute. reflexivity.
  - reflexivity.
Defined.

Section FileLoopFacts.
Context `{Externals}.
Variable range : nat → MapOrder.
Variable client : Client.
Variable cfg : Config.

(** The world after a round of the file loop that wrote [c]. *)
Lemma file_cycle_run k w u status body rest nodes configs c :
  filepath_Dir (File cfg) ∈ dirs w →
  File cfg ∉ dirs w →
  url_Parse (PuppetDBURL cfg ++ "/pdb/query/v4") = inr u →
  network w = inr {| StatusCode := status; ReadAll := inr body |} :: rest →
  json_Unmarshal body = inr nodes →
  mapTargets url_Parse (range k) nodes = inr configs →
  yaml_Marshal configs = inr c →
  file_cycle range client cfg k w
  = (inr None,
     set_slept (slept w ++ [Sleep cfg])
       (set_logged (logged w ++ [("info", "Sleeping for " ++ Duration_String (Sleep cfg))])
          (set_files (<[File cfg := c]> (files w))
             (after_request (inventory_request (PuppetDBURL cfg) (Query cfg)) w)))).
Proof.
  intros Hdir Hnodir Hu Hnet Hjson Hmap Hyaml.
  unfold file_cycle, bind.
  erewrite getTargets_success; [|exact Hu|exact Hnet|exact Hjson|exact Hmap|exact Hyaml].
  unfold ioutil_WriteFile. simpl.
  rewrite bool_decide_eq_true_2 by done. reflexivity.
Qed.

Hypothesis range_valid : ∀ k, valid_order (range k).
Hypothesis Marshal_total : ∀ configs, ∃ c, yaml_Marshal configs = inr c.

Lemma good_reply_rendering k r :
  good_reply r → ∃ c, rendering_of (range k) r c.
Proof.
  intros (status & body & nodes & -> & Hjson & Hall).
  destruct (Marshal_total (nodesConfigs url_Parse (range k) 0 nodes)) as [c Hc].
  exists c, status, body, nodes, (nodesConfigs url_Parse (range k) 0 nodes).
  repeat split; try done.
  unfold mapTargets. by rewrite rangeNodes_parses.
Qed.

Lemma file_loop_good replies : ∀ k w rest u,
  url_Parse (PuppetDBURL cfg ++ "/pdb/query/v4") = inr u →
  filepath_Dir (File cfg) ∈ dirs w →
  File cfg ∉ dirs w →
  Forall good_reply replies →
  network w = (replies ++ rest)%list →
  ∃ w',
    file_loop range client cfg (length replies) k w = (inr OutOfCycles, w')
    ∧ network w' = rest
    ∧ dirs w' = dirs w
    ∧ slept w' = (slept w ++ replicate (length replies) (Sleep cfg))%list
    ∧ sent w' = (sent w ++ replicate (length replies)
                              (inventory_request (PuppetDBURL cfg) (Query cfg)))%list
    ∧ match last replies with
      | None => files w' = files w
      | Some r =>
          ∃ c, files w' !! File cfg = Some c
               ∧ rendering_of (range (k + length replies - 1)) r c
      end.
Proof.
  induction replies as [|r replies IH]; intros k w rest u Hu Hdir Hnodir Hgood Hnet.
  - simpl. eexists. split; [reflexivity|]. simpl in *.
    by rewrite !app_nil_r.
  - apply Forall_cons in Hgood as [Hr Hgood].
    destruct (good_reply_rendering k r Hr)
      as (c & status & body & nodes & configs & -> & Hjson & Hmap & Hyaml).
    cbn [length file_loop]. unfold bind.
    erewrite file_cycle_run;
      [|exact Hdir|exact Hnodir|exact Hu|exact Hnet|exact Hjson|exact Hmap|exact Hyaml].
    set (w1 := set_slept _ _).
    destruct (IH (S k) w1 rest u) as (w' & Hrun & Hn & Hd & Hs & Hsent & Hlast);
      try done.
    { unfold w1. simpl. by rewrite Hnet. }
    exists w'. split; [exact Hrun|]. split; [exact Hn|]. split; [by rewrite Hd|].
    split; [rewrite Hs; unfold w1; simpl; by rewrite <- app_assoc|].
    split; [rewrite Hsent; unfold w1; simpl; by rewrite <- app_assoc|].
    destruct replies as [|r' replies'].
    + simpl in Hlast. simpl. exists c. split.
      * rewrite Hlast. unfold w1. simpl. by rewrite lookup_insert_eq.
      * replace (k + 1 - 1) with k by lia. by exists status, body, nodes, configs.
    + change (last (inr {| StatusCode := status; ReadAll := inr body |} :: r' :: replies'))
        with (last (r' :: replies')).
      destruct (last (r' :: replies')) as [rl|] eqn:Hl;
        [|by apply last_None in Hl].
      destruct Hlast as (cl & Hfile & Hrender). exists cl. split; [done|].
      match goal with
      | |- rendering_of (range ?n) _ _ =>
          replace n with (S k + length (r' :: replies') - 1) by (simpl; lia)
      end.
      exact Hrender.
Qed.

End FileLoopFacts.

(** X10. With the file sink, as long as every poll succeeds the loop goes
    round: after [n] rounds on [n] good replies it is still polling, it has
    issued [n] requests and slept [n] times for the configured duration, and
    the destination file holds the rendering of the last reply, made along
    the map order of the last round. *)
Theorem file_sink_keeps_polling `{Externals}
    (range : nat → MapOrder) (client : Client) (cfg : Config) (w : World)
    (u : URL) (replies rest : list (error + Response)) :
  (∀ k, valid_order (range k)) →
  (∀ configs, ∃ c, yaml_Marshal configs = inr c) →
  Output cfg = "file" →
  files w !! filepath_Dir (File cfg) = None →
  File cfg ∉ dirs w →
  File cfg ≠ filepath_Dir (File cfg) →
  url_Parse (PuppetDBURL cfg ++ "/pdb/query/v4") = inr u →
  Forall good_reply replies →
  network w = (replies ++ rest)%list →
  ∃ w',
    main range client cfg (length replies) w = (inr Polling, w')
    ∧ network w' = rest
    ∧ slept w' = (slept w ++ replicate (length replies) (Sleep cfg))%list
    ∧ sent w' = (sent w ++ replicate (length replies)
                              (inventory_request (PuppetDBURL cfg) (Query cfg)))%list
    ∧ ∀ r, last replies = Some r →
           ∃ c, files w' !! File cfg = Some c
                ∧ rendering_of (range (length replies - 1)) r c.
Proof.
  intros Hrange Htotal Hout Hparent Hnodir Hne Hu Hgood Hnet.
  rewrite main_file by done.
  unfold file_branch, bind, os_MkdirAll. rewrite Hparent.
  destruct (file_loop_good range client cfg Hrange Htotal replies 0
              (set_dirs ({[filepath_Dir (File cfg)]} ∪ dirs w) w) rest u)
    as (w' & Hrun & Hn & Hd & Hs & Hsent & Hlast); try done.
  - simpl. apply elem_of_union. left. by apply elem_of_singleton.
  - simpl. rewrite elem_of_union, elem_of_singleton. by intros [?|?].
  - rewrite Hrun. exists w'. repeat split; try done.
    intros r Hr. rewrite Hr in Hlast. exact Hlast.
Qed.

Lemma file_sink_keeps_polling_witness :
  ∃ w',
    @main sample_externals (λ _, canonical_order) http_client
      (sample_config "http://puppetdb:8080" "file") 2
      (sample_world [inr {| StatusCode := 200; ReadAll := inr "[]" |};
                     inr {| StatusCode := 200; ReadAll := inr inventory1 |}])
    = (inr Polling, w')
    ∧ network w' = []
    ∧ slept w' = [5000000000%Z; 5000000000%Z]
    ∧ sent w'
      = replicate 2 (inventory_request "http://puppetdb:8080"
                       (Query (sample_config "http://puppetdb:8080" "file")))
    ∧ ∀ r, last [inr {| StatusCode := 200; ReadAll := inr "[]" |};
                 inr {| StatusCode := 200; ReadAll := inr inventory1 |}] = Some r →
           ∃ c, files w' !! "/etc/prometheus/targets/prometheus-puppetdb/targets.yml"
                = Some c
                ∧ @rendering_of sample_externals canonical_order r c.
Proof.
  refine (@file_sink_keeps_polling sample_externals (λ _, canonical_order) http_client
            (sample_config "http://puppetdb:8080" "file")
            (sample_world [inr {| StatusCode := 200; ReadAll := inr "[]" |};
                           inr {| StatusCode := 200; ReadAll := inr inventory1 |}])
            {| Scheme := "http"; Host := "puppetdb:8080"; Path := "/pdb/query/v4" |}
            [inr {| StatusCode := 200; ReadAll := inr "[]" |};
             inr {| StatusCode := 200; ReadAll := inr inventory1 |}] []
            _ _ _ _ _ _ _ _ _).
  - intros k i m. reflexivity.
  - intros configs. destruct configs; eexists; reflexivity.
  - reflexivity.
  - apply lookup_empty.
  - apply not_elem_of_empty.
  - intros Heq. vm_compute in Heq. discriminate Heq.
  - vm_compute. reflexivity.
  - repeat constructor.
    + exists 200%Z, "[]", []. repeat split.
      apply all_parseb_sound. reflexivity.
    + exists 200%Z, inventory1, [node1]. repeat split.
      apply all_parseb_sound. vm_compute. reflexivity.
  - reflexivity.
Defined.

(** X11. With the file sink, the error of [os.MkdirAll] is dropped: when
    the parent path cannot be made a directory the poll still runs, the write
    then fails, and [main] returns at once without a word in the log, without
    sleeping and with no file written. *)
Theorem file_write_failure_returns_silently `{Externals}
    (range : nat → MapOrder) (client : Client) (cfg : Config) (cycles : nat)
    (w : World) (blocker : string)
    (u : URL) (status : Z) (body : string) (rest : list (error + Response))
    (nodes : list Node) (configs : list StaticConfig) (c : string) :
  Output cfg = "file" →
  files w !! filepath_Dir (File cfg) = Some blocker →
  filepath_Dir (File cfg) ∉ dirs w →
  url_Parse (PuppetDBURL cfg ++ "/pdb/query/v4") = inr u →
  network w = inr {| StatusCode := status; ReadAll := inr body |} :: rest →
  json_Unmarshal body = inr nodes →
  mapTargets url_Parse (range 0) nodes = inr configs →
  yaml_Marshal configs = inr c →
  main range client cfg (S cycles) w
  = (inr Returned, after_request (inventory_request (PuppetDBURL cfg) (Query cfg)) w).
Proof.
  intros Hout Hblock Hnodir Hu Hnet Hjson Hmap Hyaml.
  rewrite main_file by done.
  unfold file_branch, bind, os_MkdirAll. rewrite Hblock.
  cbn [file_loop]. unfold bind, file_cycle, bind.
  erewrite getTargets_success; [|exact Hu|exact Hnet|exact Hjson|exact Hmap|exact Hyaml].
  unfold ioutil_WriteFile. simpl.
  rewrite bool_decide_eq_false_2; [reflexivity|]. by intros [? _].
Qed.

Lemma file_write_failure_returns_silently_witness :
  @main sample_externals (λ _, canonical_order) http_client
    (sample_config "http://puppetdb:8080" "file") 3
    (set_files {[ "/etc/prometheus/targets/prometheus-puppetdb" := "a regular file" ]}
       (sample_world [inr {| StatusCode := 200; ReadAll := inr inventory1 |}]))
  = (inr Returned,
     after_request
       (inventory_request "http://puppetdb:8080"
          (Query (sample_config "http://puppetdb:8080" "file")))
       (set_files {[ "/etc/prometheus/targets/prometheus-puppetdb" := "a regular file" ]}
          (sample_world [inr {| StatusCode := 200; ReadAll := inr inventory1 |}]))).
Proof.
  refine (@file_write_failure_returns_silently sample_externals (λ _, canonical_order)
            http_client (sample_config "http://puppetdb:8080" "file") 2
            (set_files
               {[ "/etc/prometheus/targets/prometheus-puppetdb" := "a regular file" ]}
               (sample_world [inr {| StatusCode := 200; ReadAll := inr inventory1 |}]))
            "a regular file"
            {| Scheme := "http"; Host := "puppetdb:8080"; Path := "/pdb/query/v4" |}
            200 inventory1 [] [node1]
            [ {| Targets := ["1.2.3.4:9100"];
                 Labels := {[ "certname" := "node1"; "host" := "node1";
                              "metrics_path" := "/metrics"; "job" := "job1";
                              "scheme" := "http" ]} |} ]
            _ _ _ _ _ _ _ _ _).
  - reflexivity.
  - vm_compute. reflexivity.
  - apply not_elem_of_empty.
  - vm_compute. reflexivity.
  - reflexivity.
  - vm_compute. reflexivity.
  - vm_compute. reflexivity.
  - vm_compute. reflexivity.
Defined.

(** ** Further properties of startup *)

(** Whatever the configuration, the part of [init] that follows
    [loadConfig] ends in one of two ways, with an HTTP client or with exit
    status 1 (it never panics), and it changes nothing in the world but the
    log: no request, no file written, nothing printed. *)
Lemma init_only_logs `{Externals} (cfg : Config) (w : World) :
  only_log_changed w (init cfg w).2
  ∧ ((∃ client, (init cfg w).1 = inr client) ∨ (init cfg w).1 = inl (Exit 1)).
Proof.
  unfold init.
  destruct (url_Parse (PuppetDBURL cfg)) as [err|u]; [by split; [|right]|].
  destruct (bool_decide (Scheme u ≠ "http") && bool_decide (Scheme u ≠ "https"));
    [by split; [|right]|].
  destruct (bool_decide (Scheme u = "https")); [|split; [done|left; by eexists]].
  unfold https_client, tls_LoadX509KeyPair, bind, ioutil_ReadFile.
  destruct (files w !! CertFile cfg); [|by split; [|right]].
  destruct (files w !! KeyFile cfg); [|by split; [|right]]. simpl.
  destruct (tls_X509KeyPair _ _); [by split; [|right]|]. simpl.
  destruct (files w !! CACertFile cfg); [|by split; [|right]].
  split; [done|left; by eexists].
Qed.

Section StartupFacts.
Context `{Externals}.

Lemma init_keeps_world cfg w :
  only_output_changed w (init cfg w).2 ∧ stdout (init cfg w).2 = stdout w.
Proof.
  destruct (init_only_logs cfg w) as [(? & ? & ? & ? & ? & ? & ?) _].
  by repeat split.
Qed.

End StartupFacts.

(** X12. Whatever go-flags made of the command line, [init] as a whole,
    [loadConfig] included, issues no request, writes no file, does not sleep
    and does not touch the cluster.  It ends with an HTTP client or by
    leaving the process, never with a panic: with exit status 0 exactly when
    the version or the manual page was asked for (the version line is then
    all it prints, respectively the manual page), with exit status 1 after a
    parse error, and otherwise as the rest of [init] ends on the parsed
    configuration, without printing. *)
Theorem init_full_effects `{Externals}
    (version manpage : string) (r : parse_result) (w : World) :
  only_output_changed w (init_full version manpage r w).2
  ∧ match r with
    | ParseError err printed =>
        init_full version manpage r w
        = (inl (Exit 1),
           set_logged (logged w ++ [("fatal", err)])
             (set_stdout (stdout w ++ printed) w))
    | Parsed c =>
        if Version c then
          init_full version manpage r w
          = (inl (Exit 0),
             set_stdout (stdout w ++ "Prometheus-puppetdb v" ++ version ++ LF) w)
        else if Manpage c then
          init_full version manpage r w
          = (inl (Exit 0), set_stdout (stdout w ++ fmt_Sprintf manpage) w)
        else
          init_full version manpage r w = init (Settings c) w
          ∧ stdout (init_full version manpage r w).2 = stdout w
          ∧ ((∃ client, (init_full version manpage r w).1 = inr client)
             ∨ (init_full version manpage r w).1 = inl (Exit 1))
    end.
Proof.
  unfold init_full, loadConfig, bind.
  destruct r as [err printed|c]; [by repeat split|].
  destruct (Version c); [by repeat split|].
  destruct (Manpage c); [by repeat split|].
  unfold ret. cbn [fst snd].
  destruct (init_keeps_world (Settings c) w) as [Hkeep Hout].
  destruct (init_only_logs (Settings c) w) as [_ Hend].
  split; [exact Hkeep|]. split; [reflexivity|]. split; [exact Hout|exact Hend].
Qed.

(** The version flag wins over everything else on the command line: with
    it, a base URL of any scheme is never looked at. *)
Example init_full_version_with_ftp :
  @init_full sample_externals "1.0.0" "MANUAL"
    (Parsed {| Version := true; Manpage := true;
               Settings := sample_config "ftp://puppetdb:8080" "bogus" |})
    (sample_world [])
  = (inl (Exit 0),
     set_stdout ("Prometheus-puppetdb v1.0.0" ++ LF) (sample_world [])).
Proof. reflexivity. Qed.

(** X13. With an https inventory, [init] yields a client exactly from the
    three files of the configuration: the key pair read from the certificate
    and key files, the CA bundle read from the CA file, and the skip-verify
    flag as configured. *)
Theorem init_https_client `{Externals}
    (cfg : Config) (w : World) (base : URL) (certPEM keyPEM caCert : string) :
  url_Parse (PuppetDBURL cfg) = inr base →
  Scheme base = "https" →
  files w !! CertFile cfg = Some certPEM →
  files w !! KeyFile cfg = Some keyPEM →
  tls_X509KeyPair certPEM keyPEM = None →
  files w !! CACertFile cfg = Some caCert →
  init cfg w
  = (inr {| ClientTransport :=
              {| TLSClientConfig :=
                   Some {| Certificates := [(certPEM, keyPEM)];
                           RootCAs := caCert;
                           InsecureSkipVerify := SSLSkipVerify cfg |} |} |}, w).
Proof.
  intros Hbase Hs Hcert Hkey Hpair Hca. unfold init. rewrite Hbase, Hs.
  change (bool_decide ("https" ≠ "http") && bool_decide ("https" ≠ "https")) with false.
  change (bool_decide ("https" = "https")) with true. cbv iota.
  unfold https_client, tls_LoadX509KeyPair, bind, ioutil_ReadFile.
  rewrite Hcert, Hkey. simpl. rewrite Hpair. simpl. by rewrite Hca.
Qed.

Lemma init_https_client_witness :
  @init sample_externals (sample_config "https://puppetdb:8081" "stdout")
    (set_files {[ "certs/client.pem" := "CERT"; "certs/client.key" := "KEY";
                  "certs/cacert.pem" := "CA" ]} (sample_world []))
  = (inr {| ClientTransport :=
              {| TLSClientConfig :=
                   Some {| Certificates := [("CERT", "KEY")];
                           RootCAs := "CA";
                           InsecureSkipVerify := false |} |} |},
     set_files {[ "certs/client.pem" := "CERT"; "certs/client.key" := "KEY";
                  "certs/cacert.pem" := "CA" ]} (sample_world [])).
Proof.
  refine (@init_https_client sample_externals
            (sample_config "https://puppetdb:8081" "stdout")
            (set_files {[ "certs/client.pem" := "CERT"; "certs/client.key" := "KEY";
                          "certs/cacert.pem" := "CA" ]} (sample_world []))
            {| Scheme := "https"; Host := "puppetdb:8081"; Path := "" |}
            "CERT" "KEY" "CA" _ _ _ _ _ _).
  - vm_compute. reflexivity.
  - reflexivity.
  - vm_compute. reflexivity.
  - vm_compute. reflexivity.
  - reflexivity.
  - vm_compute. reflexivity.
Defined.

(** X14. With an https inventory, a certificate, key or CA file that cannot
    be read ends the process in [init]: a fatal message is logged and the
    exit status is 1, before [main] runs and before any request. *)
Theorem init_https_missing_file_exits `{Externals}
    (range : nat → MapOrder) (cfg : Config) (cycles : nat) (w : World) (base : URL) :
  url_Parse (PuppetDBURL cfg) = inr base →
  Scheme base = "https" →
  files w !! CertFile cfg = None ∨ files w !! KeyFile cfg = None
  ∨ files w !! CACertFile cfg = None →
  ∃ msg,
    run range cfg cycles w
    = (inl (Exit 1), set_logged (logged w ++ [("fatal", msg)]) w).
Proof.
  intros Hbase Hs Hmissing. unfold run, bind, init. rewrite Hbase, Hs.
  change (bool_decide ("https" ≠ "http") && bool_decide ("https" ≠ "https")) with false.
  change (bool_decide ("https" = "https")) with true. cbv iota.
  unfold https_client, tls_LoadX509KeyPair, bind, ioutil_ReadFile.
  destruct (files w !! CertFile cfg) as [certPEM|] eqn:Hcert; [|by eexists].
  destruct (files w !! KeyFile cfg) as [keyPEM|] eqn:Hkey; [|by eexists]. simpl.
  destruct (tls_X509KeyPair certPEM keyPEM); [by eexists|]. simpl.
  destruct (files w !! CACertFile cfg) as [ca|] eqn:Hca; [|by eexists].
  by destruct Hmissing as [?|[?|?]].
Qed.

Lemma init_https_missing_file_exits_witness :
  ∃ msg,
    @run sample_externals (λ _, canonical_order)
      (sample_config "https://puppetdb:8081" "file") 3
      (sample_world [inr {| StatusCode := 200; ReadAll := inr inventory1 |}])
    = (inl (Exit 1),
       set_logged [("fatal", msg)]
         (sample_world [inr {| StatusCode := 200; ReadAll := inr inventory1 |}])).
Proof.
  refine (@init_https_missing_file_exits sample_externals (λ _, canonical_order)
            (sample_config "https://puppetdb:8081" "file") 3
            (sample_world [inr {| StatusCode := 200; ReadAll := inr inventory1 |}])
            {| Scheme := "https"; Host := "puppetdb:8081"; Path := "" |} _ _ _).
  - vm_compute. reflexivity.
  - reflexivity.
  - left. apply lookup_empty.
Defined.

(** ** Further properties of [outputs.Setup] *)

(** X15. [Setup] fails on its own account for unknown names only: when the
    constructors of the sinks succeed, [Setup] returns an error exactly for
    the names that are none of stdout, file, configmap and
    external-services, the empty name among them. *)
Theorem Setup_fails_iff_unknown
    (OutputFile OutputK8SConfigMap OutputK8SExternalService : Type)
    (setupOutputFile : string → error + OutputFile)
    (setupOutputK8SConfigMap : string → string → error + OutputK8SConfigMap)
    (setupOutputK8SExternalService :
       string → gmap string string → error + OutputK8SExternalService)
    (options : outputs.Options) :
  (∀ path, ∃ o, setupOutputFile path = inr o) →
  (∀ ns name, ∃ o, setupOutputK8SConfigMap ns name = inr o) →
  (∀ ns labels, ∃ o, setupOutputK8SExternalService ns labels = inr o) →
  (∃ err, outputs.Setup setupOutputFile setupOutputK8SConfigMap
            setupOutputK8SExternalService options = inl err)
  ↔ ¬ outputs.known (outputs.Name options).
Proof.
  intros Hfile Hcm Hext. split.
  - intros [err Herr] Hknown. unfold outputs.Setup, outputs.known in *.
    repeat (apply elem_of_cons in Hknown as [Hname|Hknown]).
    + by rewrite Hname in Herr.
    + rewrite Hname in Herr. simpl in Herr.
      by destruct (Hfile (outputs.FilePath options)) as [o Ho]; rewrite Ho in Herr.
    + rewrite Hname in Herr. simpl in Herr.
      by destruct (Hcm (outputs.Namespace options) (outputs.ConfigMapName options))
        as [o Ho]; rewrite Ho in Herr.
    + rewrite Hname in Herr. simpl in Herr.
      by destruct (Hext (outputs.Namespace options) (outputs.ObjectLabels options))
        as [o Ho]; rewrite Ho in Herr.
    + by apply elem_of_nil in Hknown.
  - intros Hunknown. eexists.
    by apply Setup_rejects_unknown.
Qed.

Lemma Setup_fails_iff_unknown_witness :
  (∃ err, outputs.Setup (λ _, inr ()) (λ _ _, inr ()) (λ _ _, inr ())
            {| outputs.Name := "prometheus"; outputs.FilePath := "";
               outputs.ConfigMapName := ""; outputs.Namespace := "";
               outputs.ObjectLabels := ∅ |}
          = (inl err : error + outputs.Output unit unit unit))
  ↔ ¬ outputs.known "prometheus".
Proof.
  apply (Setup_fails_iff_unknown unit unit unit (λ _, inr ()) (λ _ _, inr ())
           (λ _ _, inr ())
           {| outputs.Name := "prometheus"; outputs.FilePath := "";
              outputs.ConfigMapName := ""; outputs.Namespace := "";
              outputs.ObjectLabels := ∅ |}).
  - intros path. by exists ().
  - intros ns name. by exists ().
  - intros ns labels. by exists ().
Defined.

(** X16. The sink [Setup] returns is the one that was asked for: a
    successful [Setup] returns the standard output sink only for the name
    stdout, the file sink only for file, the ConfigMap sink only for
    configmap and the external-service sink only for external-services. *)
Theorem Setup_returns_requested_sink
    (OutputFile OutputK8SConfigMap OutputK8SExternalService : Type)
    (setupOutputFile : string → error + OutputFile)
    (setupOutputK8SConfigMap : string → string → error + OutputK8SConfigMap)
    (setupOutputK8SExternalService :
       string → gmap string string → error + OutputK8SExternalService)
    (options : outputs.Options)
    (o : outputs.Output OutputFile OutputK8SConfigMap OutputK8SExternalService) :
  outputs.Setup setupOutputFile setupOutputK8SConfigMap setupOutputK8SExternalService
    options = inr o →
  match o with
  | outputs.OutputStdout => outputs.Name options = "stdout"
  | outputs.OfFile f =>
      outputs.Name options = "file"
      ∧ setupOutputFile (outputs.FilePath options) = inr f
  | outputs.OfK8SConfigMap m =>
      outputs.Name options = "configmap"
      ∧ setupOutputK8SConfigMap (outputs.Namespace options)
          (outputs.ConfigMapName options) = inr m
  | outputs.OfK8SExternalService s =>
      outputs.Name options = "external-services"
      ∧ setupOutputK8SExternalService (outputs.Namespace options)
          (outputs.ObjectLabels options) = inr s
  end.
Proof.
  unfold outputs.Setup, outputs.wrap.
  repeat case_bool_decide; try done.
  - by intros [= <-].
  - destruct (setupOutputFile _) as [|f] eqn:Hf; [done|]. by intros [= <-].
  - destruct (setupOutputK8SConfigMap _ _) as [|m] eqn:Hm; [done|]. by intros [= <-].
  - destruct (setupOutputK8SExternalService _ _) as [|s] eqn:Hs; [done|].
    by intros [= <-].
Qed.

Lemma Setup_returns_requested_sink_witness :
  outputs.Name {| outputs.Name := "file"; outputs.FilePath := "/tmp/targets.yml";
                  outputs.ConfigMapName := ""; outputs.Namespace := "";
                  outputs.ObjectLabels := ∅ |} = "file"
  ∧ (λ path : string, inr path : error + string) "/tmp/targets.yml"
    = inr "/tmp/targets.yml".
Proof.
  apply (Setup_returns_requested_sink string unit unit
           (λ path, inr path) (λ _ _, inr ()) (λ _ _, inr ())
           {| outputs.Name := "file"; outputs.FilePath := "/tmp/targets.yml";
              outputs.ConfigMapName := ""; outputs.Namespace := "";
              outputs.ObjectLabels := ∅ |}
           (outputs.OfFile "/tmp/targets.yml")).
  reflexivity.
Defined.

(** ** Further properties of the ConfigMap sink *)


Section ConfigMapFacts.
Context `{Externals}.
Variable range : nat → MapOrder.
Variable client : Client.
Variable cfg : Config.

(** Inside a cluster the sink starts its loop on a world in which the
    ConfigMap exists: as it was, or created with an empty targets.yml. *)
Lemma configmap_branch_run cycles w maps :
  cluster w = Some maps →
  configmap_branch range client cfg cycles w
  = configmap_loop range client cfg cycles 0
      match maps !! (NameSpace cfg, ConfigMap cfg) with
      | Some _ => w
      | None =>
          set_cluster
            (Some (<[(NameSpace cfg, ConfigMap cfg) := {[ "targets.yml" := "" ]}]> maps)) w
      end.
Proof.
  intros Hcluster.
  unfold configmap_branch, bind, rest_InClusterConfig, ConfigMaps_Get, ConfigMaps_Create.
  rewrite Hcluster. cbv beta iota. rewrite Hcluster. cbn [mbind option_bind].
  destruct (maps !! (NameSpace cfg, ConfigMap cfg)) eqn:Hlook; [reflexivity|].
  cbv beta iota. rewrite Hcluster, Hlook. reflexivity.
Qed.

(** A round of the ConfigMap loop whose poll succeeds on an existing
    ConfigMap. *)
Lemma configmap_cycle_run k w maps old u status body rest nodes configs c :
  cluster w = Some maps →
  maps !! (NameSpace cfg, ConfigMap cfg) = Some old →
  url_Parse (PuppetDBURL cfg ++ "/pdb/query/v4") = inr u →
  network w = inr {| StatusCode := status; ReadAll := inr body |} :: rest →
  json_Unmarshal body = inr nodes →
  mapTargets url_Parse (range k) nodes = inr configs →
  yaml_Marshal configs = inr c →
  configmap_cycle range client cfg k w
  = (inr None,
     set_slept (slept w ++ [Sleep cfg])
       (set_logged (logged w ++ [("info", "Sleeping for " ++ Duration_String (Sleep cfg))])
          (set_cluster
             (Some (<[(NameSpace cfg, ConfigMap cfg) := {[ "targets.yml" := c ]}]> maps))
             (after_request (inventory_request (PuppetDBURL cfg) (Query cfg)) w)))).
Proof.
  intros Hcluster Hold Hu Hnet Hjson Hmap Hyaml.
  unfold configmap_cycle, bind.
  erewrite getTargets_success; [|exact Hu|exact Hnet|exact Hjson|exact Hmap|exact Hyaml].
  unfold ConfigMaps_Update. simpl. rewrite Hcluster, Hold. reflexivity.
Qed.

End ConfigMapFacts.

(** X17. With the configmap sink outside a cluster, where the in-cluster
    configuration cannot be loaded, [main] panics at once: no request goes
    out and the world is left as it was. *)
Theorem configmap_outside_cluster_panics `{Externals}
    (range : nat → MapOrder) (client : Client) (cfg : Config) (cycles : nat)
    (w : World) :
  Output cfg = "configmap" →
  cluster w = None →
  ∃ msg, main range client cfg cycles w = (inl (Panic msg), w).
Proof.
  intros Hout Hcluster. rewrite main_configmap by done.
  unfold configmap_branch, bind, rest_InClusterConfig, panic. rewrite Hcluster.
  by eexists.
Qed.

Lemma configmap_outside_cluster_panics_witness :
  ∃ msg,
    @main sample_externals (λ _, canonical_order) http_client
      (sample_config "http://puppetdb:8080" "configmap") 3
      (sample_world [inr {| StatusCode := 200; ReadAll := inr inventory1 |}])
    = (inl (Panic msg),
       sample_world [inr {| StatusCode := 200; ReadAll := inr inventory1 |}]).
Proof.
  apply (@configmap_outside_cluster_panics sample_externals (λ _, canonical_order)
           http_client (sample_config "http://puppetdb:8080" "configmap") 3
           (sample_world [inr {| StatusCode := 200; ReadAll := inr inventory1 |}])).
  - reflexivity.
  - reflexivity.
Defined.

(** X18. With the configmap sink inside a cluster, one round in which the
    poll succeeds leaves the configured ConfigMap holding the rendering under
    the key targets.yml and nothing else, whether the ConfigMap existed
    before or had to be created; the other ConfigMaps are untouched. *)
Theorem configmap_sink_stores_rendering `{Externals}
    (range : nat → MapOrder) (client : Client) (cfg : Config) (w : World)
    (maps : gmap (string * string) (gmap string string))
    (u : URL) (status : Z) (body : string) (rest : list (error + Response))
    (nodes : list Node) (configs : list StaticConfig) (c : string) :
  Output cfg = "configmap" →
  cluster w = Some maps →
  url_Parse (PuppetDBURL cfg ++ "/pdb/query/v4") = inr u →
  network w = inr {| StatusCode := status; ReadAll := inr body |} :: rest →
  json_Unmarshal body = inr nodes →
  mapTargets url_Parse (range 0) nodes = inr configs →
  yaml_Marshal configs = inr c →
  ∃ w',
    main range client cfg 1 w = (inr Polling, w')
    ∧ cluster w'
      = Some (<[(NameSpace cfg, ConfigMap cfg) := {[ "targets.yml" := c ]}]> maps)
    ∧ files w' = files w
    ∧ slept w' = (slept w ++ [Sleep cfg])%list.
Proof.
  intros Hout Hcluster Hu Hnet Hjson Hmap Hyaml.
  rewrite main_configmap by done.
  rewrite (configmap_branch_run _ _ _ _ _ maps) by done.
  cbn [configmap_loop]. unfold bind.
  destruct (maps !! (NameSpace cfg, ConfigMap cfg)) as [old|] eqn:Hold.
  - erewrite configmap_cycle_run;
      [|exact Hcluster|exact Hold|exact Hu|exact Hnet|exact Hjson|exact Hmap|exact Hyaml].
    eexists. split; [reflexivity|]. by simpl.
  - erewrite (configmap_cycle_run _ _ _ _ _
                (<[(NameSpace cfg, ConfigMap cfg) := {[ "targets.yml" := "" ]}]> maps));
      [|reflexivity|apply lookup_insert_eq|exact Hu|exact Hnet|exact Hjson|exact Hmap
       |exact Hyaml].
    eexists. split; [reflexivity|]. simpl. by rewrite insert_insert_eq.
Qed.

Lemma configmap_sink_stores_rendering_witness :
  ∃ w',
    @main sample_externals (λ _, canonical_order) http_client
      (sample_config "http://puppetdb:8080" "configmap") 1
      (set_cluster (Some ∅)
         (sample_world [inr {| StatusCode := 200; ReadAll := inr "[]" |}]))
    = (inr Polling, w')
    ∧ cluster w'
      = Some (<[("default", "prometheus-puppetdb") := {[ "targets.yml" := "[]" ++ LF ]}]> ∅)
    ∧ files w' = ∅
    ∧ slept w' = [5000000000%Z].
Proof.
  refine (@configmap_sink_stores_rendering sample_externals (λ _, canonical_order)
            http_client (sample_config "http://puppetdb:8080" "configmap")
            (set_cluster (Some ∅)
               (sample_world [inr {| StatusCode := 200; ReadAll := inr "[]" |}]))
            ∅ {| Scheme := "http"; Host := "puppetdb:8080"; Path := "/pdb/query/v4" |}
            200 "[]" [] [] [] ("[]" ++ LF) _ _ _ _ _ _ _).
  - reflexivity.
  - reflexivity.
  - vm_compute. reflexivity.
  - reflexivity.
  - reflexivity.
  - reflexivity.
  - reflexivity.
Defined.

(** X19. With the configmap sink, a missing ConfigMap is created with an
    empty targets.yml before the first poll, so a transport error in that
    poll leaves the empty placeholder behind: the error is logged, nothing
    sleeps, and [main] returns. *)
Theorem configmap_placeholder_survives_failed_poll `{Externals}
    (range : nat → MapOrder) (client : Client) (cfg : Config) (cycles : nat)
    (w : World) (maps : gmap (string * string) (gmap string string))
    (u : URL) (err : error) (rest : list (error + Response)) :
  Output cfg = "configmap" →
  cluster w = Some maps →
  maps !! (NameSpace cfg, ConfigMap cfg) = None →
  url_Parse (PuppetDBURL cfg ++ "/pdb/query/v4") = inr u →
  network w = inl err :: rest →
  ∃ w',
    main range client cfg (S cycles) w = (inr Returned, w')
    ∧ cluster w'
      = Some (<[(NameSpace cfg, ConfigMap cfg) := {[ "targets.yml" := "" ]}]> maps)
    ∧ slept w' = slept w
    ∧ sent w' = (sent w ++ [inventory_request (PuppetDBURL cfg) (Query cfg)])%list.
Proof.
  intros Hout Hcluster Habsent Hu Hnet.
  rewrite main_configmap by done.
  rewrite (configmap_branch_run _ _ _ _ _ maps) by done. rewrite Habsent.
  cbn [configmap_loop]. unfold bind, configmap_cycle, bind.
  erewrite getTargets_transport_error; [|exact Hu|exact Hnet].
  eexists. split; [reflexivity|]. by simpl.
Qed.

Lemma configmap_placeholder_survives_failed_poll_witness :
  ∃ w',
    @main sample_externals (λ _, canonical_order) http_client
      (sample_config "http://puppetdb:8080" "configmap") 2
      (set_cluster (Some ∅) (sample_world [inl "timeout"]))
    = (inr Returned, w')
    ∧ cluster w'
      = Some (<[("default", "prometheus-puppetdb") := {[ "targets.yml" := "" ]}]> ∅)
    ∧ slept w' = []
    ∧ sent w' = [inventory_request "http://puppetdb:8080"
                   (Query (sample_config "http://puppetdb:8080" "configmap"))].
Proof.
  refine (@configmap_placeholder_survives_failed_poll sample_externals
            (λ _, canonical_order) http_client
            (sample_config "http://puppetdb:8080" "configmap") 1
            (set_cluster (Some ∅) (sample_world [inl "timeout"]))
            ∅ {| Scheme := "http"; Host := "puppetdb:8080"; Path := "/pdb/query/v4" |}
            "timeout" [] _ _ _ _ _).
  - reflexivity.
  - reflexivity.
  - apply lookup_empty.
  - vm_compute. reflexivity.
  - reflexivity.
Defined.

(** ** The request body for plain queries *)

(** X20. For a query that holds no double quote, no backslash and no
    control byte, the body of the request [getNodes] builds is a well-formed
    JSON text. *)
Theorem request_body_json_for_plain_query (puppetdb query : string) :
  strings.all_bytes json_plain query = true →
  json.valid (Body (inventory_request puppetdb query)) = true.
Proof. intros Hq. simpl. by apply query_form_valid. Qed.

Lemma request_body_json_for_plain_query_witness :
  json.valid
    (Body (inventory_request "http://puppetdb:8080"
             "facts[certname, value] { name='prometheus_exporters' and nodes { deactivated is null } }"))
  = true.
Proof.
  apply (request_body_json_for_plain_query "http://puppetdb:8080").
  vm_compute. reflexivity.
Defined.

(** ** The error of a failed mapping, and a failure after good rounds *)

Lemma rangeExporters_error (Parse : string → error + URL) node visit acc err :
  rangeExporters Parse node visit acc = inl err →
  ∃ jobName target, (jobName, target) ∈ visit ∧ Parse target = inl err.
Proof.
  revert acc. induction visit as [|[jobName target] visit IH]; intros acc Hrun; [done|].
  simpl in Hrun. destruct (Parse target) as [e|u] eqn:Hp.
  - exists jobName, target. split; [by left|]. congruence.
  - destruct (IH _ Hrun) as (j & t & Hin & Ht). exists j, t. split; [by right|done].
Qed.

(** X21. The error of a failed mapping is the parse error of one of the
    exporter URLs of the inventory, unchanged. *)
Theorem mapper_error_is_a_parse_error
    (Parse : string → error + URL) (range : MapOrder) (nodes : list Node)
    (err : error) :
  valid_order range →
  mapTargets Parse range nodes = inl err →
  ∃ node jobName target,
    node ∈ nodes ∧ Exporters node !! jobName = Some target ∧ Parse target = inl err.
Proof.
  intros Hrange. unfold mapTargets. generalize 0 at 1. generalize (@nil StaticConfig).
  induction nodes as [|node nodes IH]; intros acc i Hrun; [done|].
  simpl in Hrun.
  destruct (rangeExporters Parse node (range i (Exporters node)) acc) as [e|acc'] eqn:Hnode.
  - apply rangeExporters_error in Hnode as (j & t & Hin & Ht).
    exists node, j, t. split; [by left|]. split; [|congruence].
    by apply (elem_of_range range Hrange i).
  - destruct (IH _ _ Hrun) as (n & j & t & Hn & Hl & Ht).
    exists n, j, t. split; [by right|done].
Qed.

Lemma mapper_error_is_a_parse_error_witness :
  ∃ node jobName target,
    node ∈ [node1; node_bad] ∧ Exporters node !! jobName = Some target
    ∧ url.Parse target = inl "missing protocol scheme".
Proof.
  apply (mapper_error_is_a_parse_error url.Parse canonical_order [node1; node_bad]).
  - intros i m. reflexivity.
  - vm_compute. reflexivity.
Defined.

Section FileLoopPrefix.
Context `{Externals}.
Variable range : nat → MapOrder.
Variable client : Client.
Variable cfg : Config.
Hypothesis range_valid : ∀ k, valid_order (range k).
Hypothesis Marshal_total : ∀ configs, ∃ c, yaml_Marshal configs = inr c.

(** Rounds on good replies come first: the loop on [n] good replies and
    [m] more rounds is the loop of [m] rounds started after the [n] rounds. *)
Lemma file_loop_prefix replies : ∀ m k w rest u,
  url_Parse (PuppetDBURL cfg ++ "/pdb/query/v4") = inr u →
  filepath_Dir (File cfg) ∈ dirs w →
  File cfg ∉ dirs w →
  Forall good_reply replies →
  network w = (replies ++ rest)%list →
  ∃ w',
    file_loop range client cfg (length replies) k w = (inr OutOfCycles, w')
    ∧ file_loop range client cfg (length replies + m) k w
      = file_loop range client cfg m (k + length replies) w'.
Proof.
  induction replies as [|r replies IH]; intros m k w rest u Hu Hdir Hnodir Hgood Hnet.
  - exists w. split; [reflexivity|]. simpl. by rewrite Nat.add_0_r.
  - apply Forall_cons in Hgood as [Hr Hgood].
    destruct (good_reply_rendering range range_valid Marshal_total k r Hr)
      as (c & status & body & nodes & configs & -> & Hjson & Hmap & Hyaml).
    cbn [length file_loop Nat.add]. unfold bind.
    erewrite file_cycle_run;
      [|exact Hdir|exact Hnodir|exact Hu|exact Hnet|exact Hjson|exact Hmap|exact Hyaml].
    set (w1 := set_slept _ _).
    destruct (IH m (S k) w1 rest u) as (w' & Hrun & Heq); try done.
    { unfold w1. simpl. by rewrite Hnet. }
    exists w'. split; [exact Hrun|]. rewrite Heq.
    by replace (k + S (length replies)) with (S k + length replies) by lia.
Qed.

End FileLoopPrefix.

(** X22. With the file sink, a transport error after [n] good rounds ends
    the loop: [main] returns, the destination file still holds the rendering
    of the last good reply, and there were [n+1] requests and [n] sleeps,
    however many rounds were still allowed. *)
Theorem file_sink_stops_at_first_failure `{Externals}
    (range : nat → MapOrder) (client : Client) (cfg : Config) (w : World)
    (u : URL) (replies rest : list (error + Response)) (err : error) (more : nat) :
  (∀ k, valid_order (range k)) →
  (∀ configs, ∃ c, yaml_Marshal configs = inr c) →
  Output cfg = "file" →
  files w !! filepath_Dir (File cfg) = None →
  File cfg ∉ dirs w →
  File cfg ≠ filepath_Dir (File cfg) →
  url_Parse (PuppetDBURL cfg ++ "/pdb/query/v4") = inr u →
  Forall good_reply replies →
  network w = (replies ++ inl err :: rest)%list →
  ∃ w',
    main range client cfg (length replies + S more) w = (inr Returned, w')
    ∧ network w' = rest
    ∧ slept w' = (slept w ++ replicate (length replies) (Sleep cfg))%list
    ∧ sent w' = (sent w ++ replicate (S (length replies))
                              (inventory_request (PuppetDBURL cfg) (Query cfg)))%list
    ∧ ∀ r, last replies = Some r →
           ∃ c, files w' !! File cfg = Some c
                ∧ rendering_of (range (length replies - 1)) r c.
Proof.
  intros Hrange Htotal Hout Hparent Hnodir Hne Hu Hgood Hnet.
  rewrite main_file by done.
  unfold file_branch, bind, os_MkdirAll. rewrite Hparent.
  set (w0 := set_dirs _ w).
  assert (filepath_Dir (File cfg) ∈ dirs w0) as Hdir0.
  { simpl. apply elem_of_union. left. by apply elem_of_singleton. }
  assert (File cfg ∉ dirs w0) as Hnodir0.
  { simpl. rewrite elem_of_union, elem_of_singleton. by intros [?|?]. }
  destruct (file_loop_prefix range client cfg Hrange Htotal replies (S more) 0 w0
              (inl err :: rest) u) as (w1 & Hrun1 & Heq); try done.
  destruct (file_loop_good range client cfg Hrange Htotal replies 0 w0
              (inl err :: rest) u) as (w1' & Hrun & Hn & Hd & Hs & Hsent & Hlast);
    try done.
  rewrite Hrun in Hrun1. injection Hrun1 as <-.
  rewrite Heq. cbn [file_loop]. unfold bind, file_cycle, bind.
  erewrite getTargets_transport_error; [|exact Hu|exact Hn].
  simpl. eexists. split; [reflexivity|]. simpl.
  rewrite Hn, Hs, Hsent. simpl.
  split; [done|]. split; [done|].
  split.
  { rewrite <- app_assoc. f_equal.
    change (inventory_request (PuppetDBURL cfg) (Query cfg)
            :: replicate (length replies) (inventory_request (PuppetDBURL cfg) (Query cfg)))
      with (replicate (S (length replies))
              (inventory_request (PuppetDBURL cfg) (Query cfg))).
    by rewrite replicate_S_end. }
  intros r Hr. rewrite Hr in Hlast. exact Hlast.
Qed.

Lemma file_sink_stops_at_first_failure_witness :
  ∃ w',
    @main sample_externals (λ _, canonical_order) http_client
      (sample_config "http://puppetdb:8080" "file") (1 + 3)
      (sample_world [inr {| StatusCode := 200; ReadAll := inr inventory1 |};
                     inl "timeout";
                     inr {| StatusCode := 200; ReadAll := inr "[]" |}])
    = (inr Returned, w')
    ∧ network w' = [inr {| StatusCode := 200; ReadAll := inr "[]" |}]
    ∧ slept w' = [5000000000%Z]
    ∧ sent w'
      = replicate 2 (inventory_request "http://puppetdb:8080"
                       (Query (sample_config "http://puppetdb:8080" "file")))
    ∧ ∀ r, last [inr {| StatusCode := 200; ReadAll := inr inventory1 |}] = Some r →
           ∃ c, files w' !! "/etc/prometheus/targets/prometheus-puppetdb/targets.yml"
                = Some c
                ∧ @rendering_of sample_externals canonical_order r c.
Proof.
  refine (@file_sink_stops_at_first_failure sample_externals (λ _, canonical_order)
            http_client (sample_config "http://puppetdb:8080" "file")
            (sample_world [inr {| StatusCode := 200; ReadAll := inr inventory1 |};
                           inl "timeout";
                           inr {| StatusCode := 200; ReadAll := inr "[]" |}])
            {| Scheme := "http"; Host := "puppetdb:8080"; Path := "/pdb/query/v4" |}
            [inr {| StatusCode := 200; ReadAll := inr inventory1 |}]
            [inr {| StatusCode := 200; ReadAll := inr "[]" |}] "timeout" 2
            _ _ _ _ _ _ _ _ _).
  - intros k i m. reflexivity.
  - intros configs. destruct configs; eexists; reflexivity.
  - reflexivity.
  - apply lookup_empty.
  - apply not_elem_of_empty.
  - intros Heq. vm_compute in Heq. discriminate Heq.
  - vm_compute. reflexivity.
  - repeat constructor.
    exists 200%Z, inventory1, [node1]. repeat split.
    apply all_parseb_sound. vm_compute. reflexivity.
  - reflexivity.
Defined.
